(** * The agent graph of [example_3_agent_langgraph.py]

    A shallow embedding of the three-node workflow (orchestrator, analyzer,
    responder), of the graph wired by [create_agent_graph] and of the
    execution engine that drives one run of it.

    Modelling choices.
    - A Python [str] is a [string]: a sequence of characters, each one a code
      point below 256.  [strip] and [lower] follow Python on that range.
    - [AgentState] is a dict at run time: a [gmap string string].  The dict
      display [{**state, "k": v, ...}] builds a new dict, here [<[k:=v]> state].
    - [llm.invoke] is the one external capability.  It is neither pure nor
      total (temperature 0.7, a network service): it is a transition on an
      abstract client state [World] that yields a reply or a failure.
    - Node functions live in a state-and-failure monad over [World]: a Python
      exception ends the computation with [Err].
    - [print] calls write progress to the terminal and are left out. *)

From Stdlib Require Import Ascii NArith.
From stdpp Require Import base strings gmap list.

Open Scope string_scope.

(** ** Python string methods *)

Module PyStr.

Definition code (c : ascii) : N := N_of_ascii c.

(** [str.isspace] on one character: TAB..CR, FS..US, SPACE, NEL, NBSP. *)
Definition isspace (c : ascii) : bool :=
  let n := code c in
  ((9 <=? n) && (n <=? 13) || (28 <=? n) && (n <=? 32)
   || (n =? 133) || (n =? 160))%N.

(** [str.lower] on one character: A..Z and the accented capitals of the
    second half of the range move down by 32; the rest is unchanged. *)
Definition lower_char (c : ascii) : ascii :=
  let n := code c in
  if ((65 <=? n) && (n <=? 90)
      || (192 <=? n) && (n <=? 222) && negb (n =? 215))%N
  then ascii_of_N (n + 32) else c.

Fixpoint lower (s : string) : string :=
  match s with
  | EmptyString => EmptyString
  | String c r => String (lower_char c) (lower r)
  end.

Fixpoint lstrip (s : string) : string :=
  match s with
  | EmptyString => EmptyString
  | String c r => if isspace c then lstrip r else s
  end.

Fixpoint rstrip (s : string) : string :=
  match s with
  | EmptyString => EmptyString
  | String c r =>
      match rstrip r with
      | EmptyString => if isspace c then EmptyString else String c EmptyString
      | r' => String c r'
      end
  end.

Definition strip (s : string) : string := rstrip (lstrip s).

(** [needle in hay] for strings. *)
Definition contains (hay needle : string) : Prop :=
  ∃ before after, hay = before +:+ needle +:+ after.

(** Truth value of a string: [if s:]. *)
Definition truthy (s : string) : bool :=
  match s with EmptyString => false | _ => true end.

End PyStr.

(** ** Failures and results *)

Inductive ModelFailure := ModelUnavailable | ModelTimeout | ModelError.

Inductive Error :=
| KeyError (key : string)              (* [state[key]] on an absent key *)
| ModelFailed (f : ModelFailure)       (* raised inside [llm.invoke] *)
| GraphValidationError                 (* [compile], or a dangling target *)
| UnknownRoutingLabel (label : string) (* label outside the edge's mapping *)
| StepLimitExceeded.                   (* step budget of the engine used up *)

Inductive Result (A : Type) := Ok (a : A) | Err (e : Error).
Arguments Ok {A} a.
Arguments Err {A} e.

(** ** The shared state *)

Abbreviation State := (gmap string string).

(** The fields declared by [class AgentState(TypedDict)]. *)
Definition AgentState_fields : list string :=
  ["user_query"; "query_type"; "analysis"; "final_response"; "next_step"].

(** A well-formed state has every declared field. *)
Definition well_formed (state : State) : Prop :=
  ∀ k, k ∈ AgentState_fields → is_Some (state !! k).

(** [state.get(key, default)] *)
Definition dict_get (state : State) (key default : string) : string :=
  match state !! key with Some v => v | None => default end.

(** ** Prompts (the f-strings of the three nodes) *)

Definition classification_prompt (query : string) : string :=
"Classify this user query into one of these categories:
- 'technical' if it's about programming, code, or technical concepts
- 'greeting' if it's a greeting or casual conversation
- 'general' for everything else

Query: " +:+ query +:+ "

Respond with ONLY ONE WORD: technical, greeting, or general".

Definition analysis_prompt (query : string) : string :=
"You are a technical analyst. Analyze this query and provide:
1. Key concepts involved
2. Difficulty level (beginner/intermediate/advanced)
3. A brief technical breakdown

Query: " +:+ query +:+ "

Keep your analysis concise (2-3 sentences).".

(** The prompt of [responder_node] when [analysis] is truthy ... *)
Definition grounded_prompt (analysis query : string) : string :=
"Based on this analysis:
" +:+ analysis +:+ "

Provide a clear, helpful response to the user's query: " +:+ query +:+ "

Keep your response concise and practical.".

(** ... and when it is not. *)
Definition plain_prompt (query : string) : string :=
"Provide a helpful response to this query: " +:+ query +:+ "

Keep your response friendly and concise.".

Definition response_prompt (analysis query : string) : string :=
  if PyStr.truthy analysis then grounded_prompt analysis query
  else plain_prompt query.

(** ** Classification (lines 61-74 of the source) *)

Definition categories : list string := ["technical"; "greeting"; "general"].

(** [response.content.strip().lower()] *)
Definition normalize (content : string) : string :=
  PyStr.lower (PyStr.strip content).

(** [if query_type not in [...]: query_type = 'general'] *)
Definition classify (content : string) : string :=
  let query_type := normalize content in
  if bool_decide (query_type ∉ categories) then "general" else query_type.

(** [if query_type == 'technical': 'analyzer' else: 'responder'] *)
Definition next_step_of (query_type : string) : string :=
  if String.eqb query_type "technical" then "analyzer" else "responder".

(** ** The model client and the monad of the nodes *)

(** What [llm.invoke(prompt)] gives back: [response.content], or an
    exception of the client. *)
Inductive Reply := Content (text : string) | Failure (f : ModelFailure).

(** ** Stub model clients *)

(** A scripted client: it answers the calls in order from a list of replies,
    whatever the prompt, and fails with [ModelError] when the list is used
    up.  Its state is the list of replies still to give. *)
Definition scripted (prompt : string) (replies : list string)
    : Reply * list string :=
  match replies with
  | r :: rest => (Content r, rest)
  | [] => (Failure ModelError, [])
  end.

(** A client keyed by the prompt: a fixed table from prompts to replies and
    a call counter as its state. *)
Definition keyed (table : string → Reply) (prompt : string) (calls : nat)
    : Reply * nat :=
  (table prompt, S calls).

(** Two results, from runs against two model clients whose states are
    linked by [related], are alike when they carry the same value and leave
    the clients in related states. *)
Definition alike {A W1 W2} (related : W1 → W2 → Prop)
    (x : A * W1) (y : A * W2) : Prop :=
  x.1 = y.1 ∧ related x.2 y.2.

(** A client that records the prompts it is sent, in order, beside the
    state of the client it wraps. *)
Definition recording {World : Type}
    (llm_invoke : string → World → Reply * World)
    (prompt : string) (wl : World * list string)
    : Reply * (World * list string) :=
  let '(reply, w') := llm_invoke prompt wl.1 in
  (reply, (w', (wl.2 ++ [prompt])%list)).

(** A string made of whitespace only (the empty string included). *)
Fixpoint blank (s : string) : bool :=
  match s with
  | EmptyString => true
  | String c r => PyStr.isspace c && blank r
  end.

(** A string with no whitespace at either end. *)
Definition trimmed (s : string) : Prop :=
  (∀ c r, s = String c r → PyStr.isspace c = false)
  ∧ (∀ r c, s = r +:+ String c EmptyString → PyStr.isspace c = false).

(** ** The chat examples: [simple_chat] and [ConversationManager]

    [ollama.chat(model=..., messages=...)] is the external capability here:
    a transition on the state of the model service that yields
    [response['message']['content']] or a failure.  The messages are the
    dicts [{'role': ..., 'content': ...}] that the code builds, always with
    these two keys. *)

Module Chat.

Record Message := { role : string; content : string }.

Record ConversationManager := { model : string; messages : list Message }.

Section WithClient.

Context {World : Type}.
Variable ollama_chat : string → list Message → World → Reply * World.

(** [simple_chat(prompt, model)] of the first example. *)
Definition simple_chat (prompt model : string) (w : World)
    : Result string * World :=
  match ollama_chat model [{| role := "user"; content := prompt |}] w with
  | (Content answer, w') => (Ok answer, w')
  | (Failure f, w') => (Err (ModelFailed f), w')
  end.

(** [ConversationManager(model, system_prompt)]: [if system_prompt:] holds
    for a non-empty string, so [None] and the empty string add nothing. *)
Definition __init__ (model : string) (system_prompt : option string)
    : ConversationManager :=
  let messages : list Message := [] in
  let messages :=
    match system_prompt with
    | Some text =>
        if PyStr.truthy text
        then (messages ++ [{| role := "system"; content := text |}])%list
        else messages
    | None => messages
    end in
  {| model := model; messages := messages |}.

(** [self.send_message(user_message)]: the outcome, the object after the
    call and the state of the service.  The user message is appended
    before the call, so it stays in the history when the call fails. *)
Definition send_message (user_message : string) (self : ConversationManager)
    (w : World) : Result string * ConversationManager * World :=
  let self :=
    {| model := model self;
       messages := (messages self
                    ++ [{| role := "user"; content := user_message |}])%list
    |} in
  match ollama_chat (model self) (messages self) w with
  | (Content assistant_message, w') =>
      (Ok assistant_message,
       {| model := model self;
          messages := (messages self
                       ++ [{| role := "assistant";
                              content := assistant_message |}])%list |},
       w')
  | (Failure f, w') => (Err (ModelFailed f), self, w')
  end.

Definition get_history_length (self : ConversationManager) : nat :=
  length (messages self).

(** [self.clear_history()]: keep the messages whose role is ['system']. *)
Definition clear_history (self : ConversationManager) : ConversationManager :=
  {| model := model self;
     messages := filter (λ msg, role msg = "system") (messages self) |}.

(** A conversation: successful calls of [send_message] in a row, each
    turn a user message with the reply it got. *)
Inductive converses :
    ConversationManager → World → list (string * string) →
    ConversationManager → World → Prop :=
| converses_nil self w : converses self w [] self w
| converses_cons self w user_message reply self1 w1 turns self2 w2 :
    send_message user_message self w = (Ok reply, self1, w1) →
    converses self1 w1 turns self2 w2 →
    converses self w ((user_message, reply) :: turns) self2 w2.

(** The objects that the methods can produce from a new one: any mix of
    [send_message] calls, failed or not, and of [clear_history] calls. *)
Inductive reachable (model0 : string) (system_prompt : option string)
    : ConversationManager → Prop :=
| reachable_new : reachable model0 system_prompt (__init__ model0 system_prompt)
| reachable_send self user_message w r self' w' :
    reachable model0 system_prompt self →
    send_message user_message self w = (r, self', w') →
    reachable model0 system_prompt self'
| reachable_clear self :
    reachable model0 system_prompt self →
    reachable model0 system_prompt (clear_history self).

End WithClient.

(** The messages of the turns of a conversation, as they enter the
    history. *)
Definition transcript (turns : list (string * string)) : list Message :=
  flat_map (λ turn, [ {| role := "user"; content := turn.1 |};
                      {| role := "assistant"; content := turn.2 |} ]) turns.

(** A scripted chat service: it answers the calls in order from a list of
    replies and fails with [ModelUnavailable] when the list is used up. *)
Definition scripted_chat (model : string) (messages : list Message)
    (replies : list string) : Reply * list string :=
  match replies with
  | r :: rest => (Content r, rest)
  | [] => (Failure ModelUnavailable, [])
  end.

End Chat.

Section Workflow.

(** The state of the model service, and [llm.invoke] as a transition on it. *)
Context {World : Type}.
Variable llm_invoke : string → World → Reply * World.

Definition M (A : Type) : Type := World → Result A * World.

Definition ret {A} (a : A) : M A := λ w, (Ok a, w).
Definition raise {A} (e : Error) : M A := λ w, (Err e, w).
Definition bind {A B} (c : M A) (k : A → M B) : M B :=
  λ w, match c w with
       | (Ok a, w') => k a w'
       | (Err e, w') => (Err e, w')
       end.

#[local] Instance M_ret : MRet M := @ret.
#[local] Instance M_bind : MBind M := λ A B k c, bind c k.

(** [llm.invoke(prompt).content] *)
Definition llm (prompt : string) : M string :=
  λ w, match llm_invoke prompt w with
       | (Content text, w') => (Ok text, w')
       | (Failure f, w') => (Err (ModelFailed f), w')
       end.

(** [state[key]] *)
Definition getitem (state : State) (key : string) : M string :=
  match state !! key with
  | Some v => ret v
  | None => raise (KeyError key)
  end.

(** ** The three nodes *)

Definition orchestrator_node (state : State) : M State :=
  query ← getitem state "user_query";
  content ← llm (classification_prompt query);
  let query_type := classify content in
  let next_step := next_step_of query_type in
  ret (<["next_step" := next_step]> (<["query_type" := query_type]> state)).

Definition analyzer_node (state : State) : M State :=
  query ← getitem state "user_query";
  content ← llm (analysis_prompt query);
  let analysis := PyStr.strip content in
  ret (<["next_step" := "responder"]> (<["analysis" := analysis]> state)).

Definition responder_node (state : State) : M State :=
  query ← getitem state "user_query";
  let query_type := dict_get state "query_type" "general" in
  let analysis := dict_get state "analysis" "" in
  content ← llm (response_prompt analysis query);
  let final_response := PyStr.strip content in
  ret (<["next_step" := "end"]> (<["final_response" := final_response]> state)).

(** [route_after_orchestrator]: [state["next_step"]], a [KeyError] when the
    field is absent. *)
Definition route_after_orchestrator (state : State) : Result string :=
  match state !! "next_step" with
  | Some label => Ok label
  | None => Err (KeyError "next_step")
  end.

(** ** The graph *)

(** Where an edge leads: a registered node, or the terminal marker. *)
Inductive Target := END | Node (name : string).

Inductive Edge :=
| Unconditional (target : Target)
| Conditional (path : State → Result string) (path_map : gmap string Target).

(** The builder: the map from names to nodes, the entry, the map from
    names to outgoing edges, and the names in the order they were
    registered (a name registered twice appears twice). *)
Record StateGraph := {
  nodes : gmap string (State → M State);
  entry_point : option string;
  edges : gmap string Edge;
  registered : list string
}.

Definition empty_StateGraph : StateGraph :=
  {| nodes := ∅; entry_point := None; edges := ∅; registered := [] |}.

Definition add_node (name : string) (action : State → M State)
    (g : StateGraph) : StateGraph :=
  {| nodes := <[name := action]> (nodes g);
     entry_point := entry_point g; edges := edges g;
     registered := (registered g ++ [name])%list |}.

Definition set_entry_point (name : string) (g : StateGraph) : StateGraph :=
  {| nodes := nodes g; entry_point := Some name; edges := edges g;
     registered := registered g |}.

Definition add_conditional_edges (source : string)
    (path : State → Result string) (path_map : gmap string Target)
    (g : StateGraph) : StateGraph :=
  {| nodes := nodes g; entry_point := entry_point g;
     edges := <[source := Conditional path path_map]> (edges g);
     registered := registered g |}.

Definition add_edge (start_key : string) (end_key : Target)
    (g : StateGraph) : StateGraph :=
  {| nodes := nodes g; entry_point := entry_point g;
     edges := <[start_key := Unconditional end_key]> (edges g);
     registered := registered g |}.

(** A target is known when it is the terminal marker or a registered node. *)
Definition target_known (g : StateGraph) (t : Target) : bool :=
  match t with
  | END => true
  | Node name => bool_decide (is_Some (nodes g !! name))
  end.

Definition edge_known (g : StateGraph) (e : Edge) : bool :=
  match e with
  | Unconditional t => target_known g t
  | Conditional _ path_map =>
      forallb (λ kt, target_known g kt.2) (map_to_list path_map)
  end.

(** The targets that the outgoing edge of a node can choose. *)
Definition edge_targets (g : StateGraph) (name : string) : list Target :=
  match edges g !! name with
  | Some (Unconditional t) => [t]
  | Some (Conditional _ path_map) => (map_to_list path_map).*2
  | None => []
  end.

Definition next_names (g : StateGraph) (name : string) : list string :=
  flat_map (λ t, match t with END => [] | Node next => [next] end)
           (edge_targets g name).

(** The names met from [frontier] in at most [n] transitions. *)
Fixpoint reach (g : StateGraph) (n : nat) (frontier : list string)
    : list string :=
  match n with
  | O => frontier
  | S n' => (frontier ++ reach g n' (flat_map (next_names g) frontier))%list
  end.

(** Whether the terminal marker can be reached from [name] in at most [n]
    transitions. *)
Fixpoint exits (g : StateGraph) (n : nat) (name : string) : bool :=
  match n with
  | O => false
  | S n' =>
      existsb (λ t, match t with END => true | Node next => exits g n' next end)
              (edge_targets g name)
  end.

(** The invariants of the data model, as [compile] validates them: there
    is an entry and it is a registered node (missing entry); no name was
    registered twice (duplicate node name); every edge leads to a
    registered node or to the terminal marker (dangling label); every node
    reachable from the entry has an outgoing edge, and the terminal marker
    can be reached from it (cycle without terminal exit). *)
Definition well_formed_graph (g : StateGraph) : bool :=
  match entry_point g with
  | Some entry =>
      bool_decide (is_Some (nodes g !! entry))
      && bool_decide (NoDup (registered g))
      && forallb (λ ke, edge_known g ke.2) (map_to_list (edges g))
      && forallb (λ name,
                    bool_decide (is_Some (edges g !! name))
                    && exits g (size (nodes g)) name)
                 (reach g (size (nodes g)) [entry])
  | None => false
  end.

(** Modelled from the spec: [compile], a method of the graph library whose
    code is not part of the repository.  It validates the invariants above
    and fails with [GraphValidationError]; the compiled graph is the
    validated builder. *)
Definition compile (g : StateGraph) : Result StateGraph :=
  if well_formed_graph g then Ok g else Err GraphValidationError.

(** The wiring done by [create_agent_graph], before [compile]. *)
Definition workflow : StateGraph :=
  let workflow := empty_StateGraph in
  let workflow := add_node "orchestrator" orchestrator_node workflow in
  let workflow := add_node "analyzer" analyzer_node workflow in
  let workflow := add_node "responder" responder_node workflow in
  let workflow := set_entry_point "orchestrator" workflow in
  let workflow :=
    add_conditional_edges "orchestrator" route_after_orchestrator
      {[ "analyzer" := Node "analyzer"; "responder" := Node "responder" ]}
      workflow in
  let workflow := add_edge "analyzer" (Node "responder") workflow in
  let workflow := add_edge "responder" END workflow in
  workflow.

Definition create_agent_graph : Result StateGraph := compile workflow.

(** ** The execution engine *)

(** The successor chosen by the outgoing edge of [current] on the state
    [state'] that the node returned.  A conditional edge evaluates its
    routing function and looks the label up in its mapping. *)
Definition successor (g : StateGraph) (current : string) (state' : State)
    : Result Target :=
  match edges g !! current with
  | Some (Unconditional target) => Ok target
  | Some (Conditional path path_map) =>
      match path state' with
      | Ok label =>
          match path_map !! label with
          | Some target => Ok target
          | None => Err (UnknownRoutingLabel label)
          end
      | Err e => Err e
      end
  | None => Err GraphValidationError
  end.

(** The run so far: the outcome, the nodes invoked (in order) and the
    state of the model service. *)
Definition Run : Type := Result State * list string * World.

(** Modelled from the spec: the loop of the execution engine, which is
    [graph.invoke] of the graph library and whose code is not part of the
    repository.
    Invoke the current node; stop when it asked for the terminal marker
    ([next_step == "end"], checked when [marker] is set) or when its edge
    leads to [END]; otherwise move to the successor.  [limit] is the step
    budget: the number of node invocations still allowed. *)
Fixpoint engine (marker : bool) (limit : nat) (g : StateGraph)
    (current : string) (state : State) (w : World) : Run :=
  match limit with
  | O => (Err StepLimitExceeded, [], w)
  | S limit' =>
      match nodes g !! current with
      | None => (Err GraphValidationError, [], w)
      | Some apply =>
          match apply state w with
          | (Err e, w') => (Err e, [current], w')
          | (Ok state', w') =>
              if marker && bool_decide (state' !! "next_step" = Some "end")
              then (Ok state', [current], w')
              else
                match successor g current state' with
                | Err e => (Err e, [current], w')
                | Ok END => (Ok state', [current], w')
                | Ok (Node next) =>
                    let '(r, visited, w'') :=
                      engine marker limit' g next state' w' in
                    (r, current :: visited, w'')
                end
          end
      end
  end.

(** [run(graph, initialState)] of the spec, with its step limit. *)
Definition run (limit : nat) (g : StateGraph) (initial_state : State)
    (w : World) : Run :=
  match entry_point g with
  | Some entry => engine true limit g entry initial_state w
  | None => (Err GraphValidationError, [], w)
  end.

(** The same loop when the engine follows the edges only and never looks
    at [next_step], as a graph library that knows nothing of the fields
    of the state does. *)
Definition run_edges_only (limit : nat) (g : StateGraph)
    (initial_state : State) (w : World) : Run :=
  match entry_point g with
  | Some entry => engine false limit g entry initial_state w
  | None => (Err GraphValidationError, [], w)
  end.

(** The state that [run_query] starts from. *)
Definition initial_state (query : string) : State :=
  <["next_step" := ""]> (<["final_response" := ""]> (<["analysis" := ""]>
    (<["query_type" := ""]> (<["user_query" := query]> ∅)))).

(** [run_query(graph, query)]: [graph.invoke(initial_state)]. *)
Definition run_query (limit : nat) (graph : StateGraph) (query : string)
    (w : World) : Run :=
  run limit graph (initial_state query) w.

(** A malformed graph used to exercise the step limit: one node that
    returns its input and whose edge leads back to itself. *)
Definition spinning : StateGraph :=
  let workflow := empty_StateGraph in
  let workflow := add_node "spin" (λ state, ret state) workflow in
  let workflow := set_entry_point "spin" workflow in
  let workflow := add_edge "spin" (Node "spin") workflow in
  workflow.

(** A node fails only on a missing [user_query] or on a failure of the
    model client. *)
Definition node_failure (state : State) (e : Error) : Prop :=
  (state !! "user_query" = None ∧ e = KeyError "user_query")
  ∨ ∃ f, e = ModelFailed f.

(** ** The paths of [workflow]

    Every run from the entry node has one of these shapes: the state
    machine Orchestrator -> (Analyzer ->) Responder -> End, cut short by a
    failing node or by the step budget. *)

Definition technical (state : State) : Prop :=
  state !! "query_type" = Some "technical".

Inductive run_shape (limit : nat) (state : State) (w : World) : Run → Prop :=
| shape_no_budget :
    limit = 0 →
    run_shape limit state w (Err StepLimitExceeded, [], w)
| shape_o_fails e w1 :
    (1 ≤ limit)%nat →
    orchestrator_node state w = (Err e, w1) →
    run_shape limit state w (Err e, ["orchestrator"], w1)
| shape_o_budget s1 w1 :
    limit = 1 →
    orchestrator_node state w = (Ok s1, w1) →
    run_shape limit state w (Err StepLimitExceeded, ["orchestrator"], w1)
| shape_oa_fails s1 w1 e w2 :
    (2 ≤ limit)%nat →
    orchestrator_node state w = (Ok s1, w1) → technical s1 →
    analyzer_node s1 w1 = (Err e, w2) →
    run_shape limit state w (Err e, ["orchestrator"; "analyzer"], w2)
| shape_oa_budget s1 w1 s2 w2 :
    limit = 2 →
    orchestrator_node state w = (Ok s1, w1) → technical s1 →
    analyzer_node s1 w1 = (Ok s2, w2) →
    run_shape limit state w
      (Err StepLimitExceeded, ["orchestrator"; "analyzer"], w2)
| shape_oar_fails s1 w1 s2 w2 e w3 :
    (3 ≤ limit)%nat →
    orchestrator_node state w = (Ok s1, w1) → technical s1 →
    analyzer_node s1 w1 = (Ok s2, w2) →
    responder_node s2 w2 = (Err e, w3) →
    run_shape limit state w
      (Err e, ["orchestrator"; "analyzer"; "responder"], w3)
| shape_oar s1 w1 s2 w2 s3 w3 :
    (3 ≤ limit)%nat →
    orchestrator_node state w = (Ok s1, w1) → technical s1 →
    analyzer_node s1 w1 = (Ok s2, w2) →
    responder_node s2 w2 = (Ok s3, w3) →
    run_shape limit state w
      (Ok s3, ["orchestrator"; "analyzer"; "responder"], w3)
| shape_or_fails s1 w1 e w2 :
    (2 ≤ limit)%nat →
    orchestrator_node state w = (Ok s1, w1) → ¬ technical s1 →
    responder_node s1 w1 = (Err e, w2) →
    run_shape limit state w (Err e, ["orchestrator"; "responder"], w2)
| shape_or s1 w1 s2 w2 :
    (2 ≤ limit)%nat →
    orchestrator_node state w = (Ok s1, w1) → ¬ technical s1 →
    responder_node s1 w1 = (Ok s2, w2) →
    run_shape limit state w (Ok s2, ["orchestrator"; "responder"], w2).

(** ** Proof steps used throughout *)

Ltac solve_elem :=
  rewrite ?elem_of_cons, ?elem_of_nil; intuition congruence.

Ltac unfold_node :=
  unfold orchestrator_node, analyzer_node, responder_node,
    mbind, M_bind, bind, getitem, llm, ret, raise.

Ltac unfold_workflow :=
  unfold workflow;
  cbn [nodes edges entry_point add_node add_edge set_entry_point
       add_conditional_edges empty_StateGraph].

(** Two equations for the same call give the same result. *)
Ltac same_calls :=
  repeat match goal with
    | H1 : orchestrator_node ?s ?w = _, H2 : orchestrator_node ?s ?w = _
      |- _ => rewrite H1 in H2; simplify_eq
    | H1 : analyzer_node ?s ?w = _, H2 : analyzer_node ?s ?w = _
      |- _ => rewrite H1 in H2; simplify_eq
    | H1 : responder_node ?s ?w = _, H2 : responder_node ?s ?w = _
      |- _ => rewrite H1 in H2; simplify_eq
    end.

(** ** The nodes, case by case *)

Lemma orchestrator_node_Ok state w state' w' :
  orchestrator_node state w = (Ok state', w') →
  ∃ query content,
    state !! "user_query" = Some query
    ∧ llm_invoke (classification_prompt query) w = (Content content, w')
    ∧ state' = <["next_step" := next_step_of (classify content)]>
                 (<["query_type" := classify content]> state).
Proof.
  unfold_node. destruct (state !! "user_query") as [query|]; [|congruence].
  destruct (llm_invoke _ w) as [[content|f] w1] eqn:Hllm; [|congruence].
  intros [= <- <-]. eauto.
Qed.

Lemma analyzer_node_Ok state w state' w' :
  analyzer_node state w = (Ok state', w') →
  ∃ query content,
    state !! "user_query" = Some query
    ∧ llm_invoke (analysis_prompt query) w = (Content content, w')
    ∧ state' = <["next_step" := "responder"]>
                 (<["analysis" := PyStr.strip content]> state).
Proof.
  unfold_node. destruct (state !! "user_query") as [query|]; [|congruence].
  destruct (llm_invoke _ w) as [[content|f] w1] eqn:Hllm; [|congruence].
  intros [= <- <-]. eauto.
Qed.

Lemma responder_node_Ok state w state' w' :
  responder_node state w = (Ok state', w') →
  ∃ query content,
    state !! "user_query" = Some query
    ∧ llm_invoke (response_prompt (dict_get state "analysis" "") query) w
      = (Content content, w')
    ∧ state' = <["next_step" := "end"]>
                 (<["final_response" := PyStr.strip content]> state).
Proof.
  unfold_node. destruct (state !! "user_query") as [query|]; [|congruence].
  destruct (llm_invoke _ w) as [[content|f] w1] eqn:Hllm; [|congruence].
  intros [= <- <-]. eauto.
Qed.

Lemma orchestrator_node_Err state w e w' :
  orchestrator_node state w = (Err e, w') → node_failure state e.
Proof.
  unfold node_failure; unfold_node.
  destruct (state !! "user_query") as [query|]; [|intros [= <- <-]; eauto].
  destruct (llm_invoke _ w) as [[content|f] w1]; intros [= <- <-]; eauto.
Qed.

Lemma analyzer_node_Err state w e w' :
  analyzer_node state w = (Err e, w') → node_failure state e.
Proof.
  unfold node_failure; unfold_node.
  destruct (state !! "user_query") as [query|]; [|intros [= <- <-]; eauto].
  destruct (llm_invoke _ w) as [[content|f] w1]; intros [= <- <-]; eauto.
Qed.

Lemma responder_node_Err state w e w' :
  responder_node state w = (Err e, w') → node_failure state e.
Proof.
  unfold node_failure; unfold_node.
  destruct (state !! "user_query") as [query|]; [|intros [= <- <-]; eauto].
  destruct (llm_invoke _ w) as [[content|f] w1]; intros [= <- <-]; eauto.
Qed.

(** ** Classification *)

Example strip_example : PyStr.strip "  Technical
" = "Technical".
Proof. reflexivity. Qed.

Example strip_inner_space : PyStr.strip " not  sure " = "not  sure".
Proof. reflexivity. Qed.

Example classify_technical : classify " TECHNICAL
" = "technical".
Proof. reflexivity. Qed.

Example classify_greeting : classify "Greeting" = "greeting".
Proof. reflexivity. Qed.

Example classify_maybe : classify "maybe" = "general".
Proof. reflexivity. Qed.

Example classify_sentence : classify "This is technical." = "general".
Proof. reflexivity. Qed.

Lemma classify_cases content :
  classify content = "technical" ∨ classify content = "greeting"
  ∨ classify content = "general".
Proof.
  unfold classify, categories. case_bool_decide as Hin; [by auto|].
  rewrite !elem_of_cons, elem_of_nil in Hin. tauto.
Qed.

Lemma classify_unrecognized content :
  normalize content ∉ categories → classify content = "general".
Proof. intros Hn. unfold classify. by rewrite bool_decide_eq_true_2. Qed.

Lemma next_step_of_cases query_type :
  (query_type = "technical" ∧ next_step_of query_type = "analyzer")
  ∨ (query_type ≠ "technical" ∧ next_step_of query_type = "responder").
Proof.
  unfold next_step_of. destruct (String.eqb_spec query_type "technical"); auto.
Qed.

(** ** The wiring of [workflow] *)

Lemma workflow_entry : entry_point workflow = Some "orchestrator".
Proof. reflexivity. Qed.

Lemma workflow_nodes name :
  nodes workflow !! name =
    if decide (name = "responder") then Some responder_node
    else if decide (name = "analyzer") then Some analyzer_node
    else if decide (name = "orchestrator") then Some orchestrator_node
    else None.
Proof.
  unfold_workflow. rewrite !lookup_insert, lookup_empty.
  repeat case_decide; congruence.
Qed.

Lemma workflow_edges name :
  edges workflow !! name =
    if decide (name = "responder") then Some (Unconditional END)
    else if decide (name = "analyzer")
         then Some (Unconditional (Node "responder"))
    else if decide (name = "orchestrator")
         then Some (Conditional route_after_orchestrator
                      {[ "analyzer" := Node "analyzer";
                         "responder" := Node "responder" ]})
    else None.
Proof.
  unfold_workflow. rewrite !lookup_insert, lookup_empty.
  repeat case_decide; congruence.
Qed.

Lemma path_map_lookup label :
  ({[ "analyzer" := Node "analyzer"; "responder" := Node "responder" ]}
     : gmap string Target) !! label =
    if decide (label = "analyzer") then Some (Node "analyzer")
    else if decide (label = "responder") then Some (Node "responder")
    else None.
Proof.
  rewrite lookup_insert, lookup_singleton.
  repeat case_decide; congruence.
Qed.

Lemma workflow_well_formed : well_formed_graph workflow = true.
Proof. vm_compute. reflexivity. Qed.

Lemma create_agent_graph_Ok : create_agent_graph = Ok workflow.
Proof. unfold create_agent_graph, compile. by rewrite workflow_well_formed. Qed.

(** What [compile] refuses: the spinning graph, whose only node cannot
    reach the terminal marker; a builder without entry; a name registered
    twice; an edge to a name that was never registered. *)
Lemma compile_refuses_cycle : compile spinning = Err GraphValidationError.
Proof. by vm_compute. Qed.

Lemma compile_refuses_missing_entry :
  compile (add_edge "responder" END
             (add_node "responder" responder_node empty_StateGraph))
  = Err GraphValidationError.
Proof. by vm_compute. Qed.

Lemma compile_refuses_duplicate :
  compile (add_node "responder" responder_node workflow)
  = Err GraphValidationError.
Proof. by vm_compute. Qed.

Lemma compile_refuses_dangling :
  compile (add_edge "analyzer" (Node "reviewer") workflow)
  = Err GraphValidationError.
Proof. by vm_compute. Qed.

(** ** One turn of the engine at each node of [workflow] *)

Lemma engine_S marker limit g current state w :
  engine marker (S limit) g current state w =
    match nodes g !! current with
    | None => (Err GraphValidationError, [], w)
    | Some apply =>
        match apply state w with
        | (Err e, w') => (Err e, [current], w')
        | (Ok state', w') =>
            if marker && bool_decide (state' !! "next_step" = Some "end")
            then (Ok state', [current], w')
            else
              match successor g current state' with
              | Err e => (Err e, [current], w')
              | Ok END => (Ok state', [current], w')
              | Ok (Node next) =>
                  let '(r, visited, w'') :=
                    engine marker limit g next state' w' in
                  (r, current :: visited, w'')
              end
        end
    end.
Proof. reflexivity. Qed.

Lemma engine_at_responder marker limit state w :
  engine marker (S limit) workflow "responder" state w =
    match responder_node state w with
    | (Ok state', w') => (Ok state', ["responder"], w')
    | (Err e, w') => (Err e, ["responder"], w')
    end.
Proof.
  rewrite engine_S, workflow_nodes. simpl.
  destruct (responder_node state w) as [[state'|e] w']; [|done].
  unfold successor. rewrite workflow_edges. simpl.
  by destruct (marker && _).
Qed.

Lemma engine_at_analyzer marker limit state w :
  engine marker (S limit) workflow "analyzer" state w =
    match analyzer_node state w with
    | (Ok state', w') =>
        let '(r, visited, w'') :=
          engine marker limit workflow "responder" state' w' in
        (r, "analyzer" :: visited, w'')
    | (Err e, w') => (Err e, ["analyzer"], w')
    end.
Proof.
  rewrite engine_S, workflow_nodes. simpl.
  destruct (analyzer_node state w) as [[state'|e] w'] eqn:Hnode; [|done].
  apply analyzer_node_Ok in Hnode as (query & content & _ & _ & ->).
  rewrite lookup_insert_eq, bool_decide_eq_false_2, andb_false_r by done.
  unfold successor. by rewrite workflow_edges.
Qed.

Lemma engine_at_orchestrator marker limit state w :
  engine marker (S limit) workflow "orchestrator" state w =
    match orchestrator_node state w with
    | (Ok state', w') =>
        let next :=
          if bool_decide (state' !! "query_type" = Some "technical")
          then "analyzer" else "responder" in
        let '(r, visited, w'') :=
          engine marker limit workflow next state' w' in
        (r, "orchestrator" :: visited, w'')
    | (Err e, w') => (Err e, ["orchestrator"], w')
    end.
Proof.
  rewrite engine_S, workflow_nodes. simpl.
  destruct (orchestrator_node state w) as [[state'|e] w'] eqn:Hnode; [|done].
  apply orchestrator_node_Ok in Hnode as (query & content & _ & _ & ->).
  unfold successor. rewrite workflow_edges. simpl.
  unfold route_after_orchestrator.
  rewrite !lookup_insert_eq, path_map_lookup.
  rewrite lookup_insert_ne, lookup_insert_eq by done.
  destruct (next_step_of_cases (classify content)) as [[Hc ->]|[Hc ->]].
  - rewrite Hc. by rewrite andb_false_r.
  - rewrite andb_false_r. simpl.
    rewrite bool_decide_eq_false_2 by congruence. done.
Qed.

Lemma engine_shape marker limit state w :
  run_shape limit state w (engine marker limit workflow "orchestrator" state w).
Proof.
  destruct limit as [|limit]; [by constructor|].
  rewrite engine_at_orchestrator.
  destruct (orchestrator_node state w) as [[s1|e] w1] eqn:Ho;
    [|constructor; [lia|done]].
  cbv zeta. case_bool_decide as Htech.
  - destruct limit as [|limit]; [by eapply shape_o_budget|].
    rewrite engine_at_analyzer.
    destruct (analyzer_node s1 w1) as [[s2|e] w2] eqn:Ha;
      [|eapply shape_oa_fails; eauto; lia].
    destruct limit as [|limit]; [by eapply shape_oa_budget|].
    rewrite engine_at_responder.
    destruct (responder_node s2 w2) as [[s3|e] w3] eqn:Hr.
    + eapply shape_oar; eauto; lia.
    + eapply shape_oar_fails; eauto; lia.
  - destruct limit as [|limit]; [by eapply shape_o_budget|].
    rewrite engine_at_responder.
    destruct (responder_node s1 w1) as [[s2|e] w2] eqn:Hr.
    + eapply shape_or; eauto; lia.
    + eapply shape_or_fails; eauto; lia.
Qed.

Lemma run_shape_of limit state w :
  run_shape limit state w (run limit workflow state w).
Proof. unfold run. rewrite workflow_entry. apply engine_shape. Qed.

(** On [workflow] it makes no difference whether the engine looks at
    [next_step]: the only node that asks for ["end"] is the one whose edge
    leads to [END]. *)
Lemma run_edges_only_same limit state w :
  run_edges_only limit workflow state w = run limit workflow state w.
Proof.
  unfold run, run_edges_only. rewrite workflow_entry.
  destruct limit as [|limit]; [done|]. rewrite !engine_at_orchestrator.
  destruct (orchestrator_node state w) as [[s1|e] w1]; [|done].
  cbv zeta. case_bool_decide.
  - destruct limit as [|limit]; [done|]. rewrite !engine_at_analyzer.
    destruct (analyzer_node s1 w1) as [[s2|e] w2]; [|done].
    destruct limit as [|limit]; [done|]. by rewrite !engine_at_responder.
  - destruct limit as [|limit]; [done|]. by rewrite !engine_at_responder.
Qed.

(** ** Properties of the nodes *)

Lemma append_assoc (a b c : string) : (a +:+ b) +:+ c = a +:+ b +:+ c.
Proof.
  induction a as [|x a IH]; [done|].
  change (String x ((a +:+ b) +:+ c) = String x (a +:+ b +:+ c)).
  by rewrite IH.
Qed.

Lemma well_formed_insert (state : State) k v :
  well_formed state → well_formed (<[k := v]> state).
Proof.
  intros Hwf k' Hk'. rewrite lookup_insert. case_decide; [by eexists|].
  by apply Hwf.
Qed.

Lemma well_formed_user_query (state : State) :
  well_formed state → ∃ query, state !! "user_query" = Some query.
Proof. intros Hwf. apply Hwf. unfold AgentState_fields. solve_elem. Qed.

Lemma node_failure_well_formed state e :
  well_formed state → node_failure state e → ∃ f, e = ModelFailed f.
Proof.
  intros Hwf [[Hnone _]|Hf]; [|done].
  apply well_formed_user_query in Hwf as [query Hq]. congruence.
Qed.

(** C3. For a well-formed input state, each node returns a state that
    agrees with its input on every field it does not own:
    [orchestrator_node] changes only [query_type] and [next_step],
    [analyzer_node] only [analysis] and [next_step] (so [user_query] is
    kept), [responder_node] only [final_response] and [next_step].  The
    returned state is well formed again, and the only way a node fails on
    a well-formed state is a failure of the model client. *)
Theorem node_frame (state : State) (w : World) :
  well_formed state →
  (∀ state' w', orchestrator_node state w = (Ok state', w') →
     well_formed state'
     ∧ ∀ k, k ≠ "query_type" → k ≠ "next_step" → state' !! k = state !! k)
  ∧ (∀ state' w', analyzer_node state w = (Ok state', w') →
       well_formed state'
       ∧ state' !! "user_query" = state !! "user_query"
       ∧ ∀ k, k ≠ "analysis" → k ≠ "next_step" → state' !! k = state !! k)
  ∧ (∀ state' w', responder_node state w = (Ok state', w') →
       well_formed state'
       ∧ ∀ k, k ≠ "final_response" → k ≠ "next_step" →
           state' !! k = state !! k)
  ∧ (∀ e w', orchestrator_node state w = (Err e, w')
             ∨ analyzer_node state w = (Err e, w')
             ∨ responder_node state w = (Err e, w') →
       ∃ f, e = ModelFailed f).
Proof.
  intros Hwf. split; [|split; [|split]].
  - intros state' w' (? & ? & _ & _ & ->)%orchestrator_node_Ok.
    split; [by do 2 apply well_formed_insert|].
    intros k Hk1 Hk2. by rewrite !lookup_insert_ne.
  - intros state' w' (? & ? & _ & _ & ->)%analyzer_node_Ok.
    split; [by do 2 apply well_formed_insert|].
    split; [by rewrite !lookup_insert_ne|].
    intros k Hk1 Hk2. by rewrite !lookup_insert_ne.
  - intros state' w' (? & ? & _ & _ & ->)%responder_node_Ok.
    split; [by do 2 apply well_formed_insert|].
    intros k Hk1 Hk2. by rewrite !lookup_insert_ne.
  - intros e w' [H|[H|H]]; apply (node_failure_well_formed state); try done.
    + by eapply orchestrator_node_Err.
    + by eapply analyzer_node_Err.
    + by eapply responder_node_Err.
Qed.

(** C5. On a well-formed state, [responder_node] stores the stripped reply
    of the model client in [final_response] and sets [next_step] to
    ["end"]; its edge leads to [END], so a run that reaches the responder
    stops there with that state. *)
Theorem responder_terminates (state : State) (w : World) :
  well_formed state →
  edges workflow !! "responder" = Some (Unconditional END)
  ∧ ∃ query, state !! "user_query" = Some query
    ∧ ∀ content w',
        llm_invoke (response_prompt (dict_get state "analysis" "") query) w
          = (Content content, w') →
        ∃ state',
          responder_node state w = (Ok state', w')
          ∧ state' !! "final_response" = Some (PyStr.strip content)
          ∧ state' !! "next_step" = Some "end"
          ∧ ∀ marker limit,
              engine marker (S limit) workflow "responder" state w
              = (Ok state', ["responder"], w').
Proof.
  intros Hwf. split; [by rewrite workflow_edges|].
  destruct (well_formed_user_query _ Hwf) as [query Hq].
  exists query. split; [done|]. intros content w' Hllm.
  assert (responder_node state w
          = (Ok (<["next_step" := "end"]>
                   (<["final_response" := PyStr.strip content]> state)), w'))
    as Hnode.
  { unfold_node. by rewrite Hq, Hllm. }
  eexists. split; [exact Hnode|]. split; [|split].
  - by rewrite lookup_insert_ne, lookup_insert_eq.
  - by rewrite lookup_insert_eq.
  - intros marker limit. by rewrite engine_at_responder, Hnode.
Qed.

(** C6. On a well-formed state, [responder_node] makes one call to the
    model client, and the prompt of that call depends on [analysis].  When
    [analysis] is not empty the prompt is the grounded text, which contains
    the analysis and the query.  When it is empty the prompt is the plain
    text, made of two fixed pieces around the query: it contains the query
    and nothing of the state but the query.  The two texts are written out
    in the statement. *)
Theorem responder_prompt_choice (state : State) (w : World) :
  well_formed state →
  ∃ query analysis prompt,
    state !! "user_query" = Some query
    ∧ state !! "analysis" = Some analysis
    ∧ responder_node state w =
        match llm_invoke prompt w with
        | (Content content, w') =>
            (Ok (<["next_step" := "end"]>
                   (<["final_response" := PyStr.strip content]> state)), w')
        | (Failure f, w') => (Err (ModelFailed f), w')
        end
    ∧ (analysis ≠ "" →
         prompt = grounded_prompt analysis query
         ∧ PyStr.contains prompt analysis ∧ PyStr.contains prompt query)
    ∧ (analysis = "" → prompt = plain_prompt query)
    ∧ PyStr.contains prompt query
    ∧ (analysis ≠ "" →
         prompt = "Based on this analysis:
" +:+ analysis +:+ "

Provide a clear, helpful response to the user's query: " +:+ query +:+ "

Keep your response concise and practical.")
    ∧ (analysis = "" →
         prompt = "Provide a helpful response to this query: " +:+ query +:+ "

Keep your response friendly and concise."
         ∧ ∀ other : State,
             other !! "user_query" = Some query →
             dict_get other "analysis" "" = "" →
             response_prompt (dict_get other "analysis" "") query = prompt).
Proof.
  intros Hwf.
  destruct (well_formed_user_query _ Hwf) as [query Hq].
  destruct (Hwf "analysis") as [analysis Ha];
    [unfold AgentState_fields; solve_elem|].
  exists query, analysis, (response_prompt analysis query).
  split; [done|]. split; [done|].
  assert (PyStr.contains (grounded_prompt analysis query) query) as Hgq.
  { unfold grounded_prompt.
    eexists ("Based on this analysis:
" +:+ analysis +:+ "

Provide a clear, helpful response to the user's query: "), _.
    by rewrite !append_assoc. }
  assert (PyStr.contains (plain_prompt query) query) as Hpq.
  { unfold plain_prompt. by eexists _, _. }
  split; [|split; [|split; [|split; [|split]]]].
  - unfold_node. unfold dict_get. rewrite Hq, Ha.
    by destruct (llm_invoke _ w) as [[content|f] w'].
  - intros Hne. unfold response_prompt.
    destruct analysis as [|c rest]; [done|]. cbn [PyStr.truthy].
    split; [done|]. split; [|done]. unfold grounded_prompt. by eexists _, _.
  - by intros ->.
  - unfold response_prompt. by destruct (PyStr.truthy analysis).
  - intros Hne. unfold response_prompt.
    by destruct analysis as [|c rest].
  - intros ->. split; [done|]. intros other _ Hother. by rewrite Hother.
Qed.

(** ** Properties of the runs *)

Lemma orchestrator_node_reply state w query content w' :
  state !! "user_query" = Some query →
  llm_invoke (classification_prompt query) w = (Content content, w') →
  orchestrator_node state w =
    (Ok (<["next_step" := next_step_of (classify content)]>
           (<["query_type" := classify content]> state)), w').
Proof. intros Hq Hllm. unfold_node. by rewrite Hq, Hllm. Qed.

Lemma analyzer_node_reply state w query content w' :
  state !! "user_query" = Some query →
  llm_invoke (analysis_prompt query) w = (Content content, w') →
  analyzer_node state w =
    (Ok (<["next_step" := "responder"]>
           (<["analysis" := PyStr.strip content]> state)), w').
Proof. intros Hq Hllm. unfold_node. by rewrite Hq, Hllm. Qed.

Lemma analyzer_node_failure state w query f w' :
  state !! "user_query" = Some query →
  llm_invoke (analysis_prompt query) w = (Failure f, w') →
  analyzer_node state w = (Err (ModelFailed f), w').
Proof. intros Hq Hllm. unfold_node. by rewrite Hq, Hllm. Qed.

Lemma initial_state_user_query query :
  initial_state query !! "user_query" = Some query.
Proof.
  unfold initial_state. rewrite !lookup_insert_ne by done.
  apply lookup_insert_eq.
Qed.

Lemma initial_state_well_formed query : well_formed (initial_state query).
Proof using.
  intros k Hk. unfold AgentState_fields in Hk. unfold initial_state.
  rewrite !lookup_insert. repeat case_decide; try by eexists.
  rewrite !elem_of_cons, elem_of_nil in Hk.
  destruct Hk as [?|[?|[?|[?|[?|[]]]]]]; congruence.
Qed.

Lemma technical_after_orchestrator (state : State) content :
  technical (<["next_step" := next_step_of (classify content)]>
               (<["query_type" := classify content]> state))
  ↔ classify content = "technical".
Proof.
  unfold technical. rewrite lookup_insert_ne, lookup_insert_eq by done.
  split; congruence.
Qed.

(** The shape of a run bounds what it visited. *)
Lemma run_shape_visited limit state w r visited w' :
  run_shape limit state w (r, visited, w') →
  NoDup visited ∧ (length visited ≤ 3)%nat ∧ (length visited ≤ limit)%nat.
Proof.
  intros Hshape. split; [|split].
  - inversion Hshape; subst;
      repeat (apply NoDup_cons; split; [solve_elem|]); apply NoDup_nil_2.
  - inversion Hshape; subst; simpl; lia.
  - inversion Hshape; subst; simpl; lia.
Qed.

(** C1. A run of the reference workflow with a step budget of at least 3
    never visits a node twice and never invokes more than 3 nodes.  When
    the orchestrator classifies the query as technical, the run visits
    orchestrator, analyzer, responder in that order (a failure of the
    model client inside the analyzer aborts the run there); for every other
    classification it visits orchestrator then responder, and the analyzer
    is not invoked. *)
Theorem routing_correctness (limit : nat) (query : string) (w : World)
    r visited w_end :
  (3 ≤ limit)%nat →
  run_query limit workflow query w = (r, visited, w_end) →
  NoDup visited ∧ (length visited ≤ 3)%nat
  ∧ ∀ content w1,
      llm_invoke (classification_prompt query) w = (Content content, w1) →
      (classify content = "technical" →
         (∀ analysis w2,
            llm_invoke (analysis_prompt query) w1 = (Content analysis, w2) →
            visited = ["orchestrator"; "analyzer"; "responder"])
         ∧ (∀ f w2,
              llm_invoke (analysis_prompt query) w1 = (Failure f, w2) →
              visited = ["orchestrator"; "analyzer"]
              ∧ r = Err (ModelFailed f)))
      ∧ (classify content ≠ "technical" →
           visited = ["orchestrator"; "responder"]
           ∧ "analyzer" ∉ visited).
Proof.
  intros Hlimit Hrun. unfold run_query in Hrun.
  pose proof (run_shape_of limit (initial_state query) w) as Hshape.
  rewrite Hrun in Hshape.
  destruct (run_shape_visited _ _ _ _ _ _ Hshape) as (Hnodup & Hlen & _).
  split; [done|]. split; [done|]. intros content w1 Hllm.
  pose proof (orchestrator_node_reply _ _ _ _ _
                (initial_state_user_query query) Hllm) as Ho.
  split.
  - intros Htech.
    assert ((<["next_step" := next_step_of (classify content)]>
               (<["query_type" := classify content]> (initial_state query)))
            !! "user_query" = Some query) as Hq.
    { rewrite !lookup_insert_ne by done. apply initial_state_user_query. }
    split.
    + intros analysis w2 Hllm2.
      pose proof (analyzer_node_reply _ _ _ _ _ Hq Hllm2) as Ha.
      inversion Hshape; subst; try lia; same_calls; try done;
        by match goal with
           | H : ¬ technical _ |- _ =>
               rewrite technical_after_orchestrator in H
           end.
    + intros f w2 Hllm2.
      pose proof (analyzer_node_failure _ _ _ _ _ Hq Hllm2) as Ha.
      inversion Hshape; subst; try lia; same_calls; try done;
        by match goal with
           | H : ¬ technical _ |- _ =>
               rewrite technical_after_orchestrator in H
           end.
  - intros Hother.
    assert (visited = ["orchestrator"; "responder"]) as ->;
      [|split; [done|solve_elem]].
    inversion Hshape; subst; try lia; same_calls; try done;
      by match goal with
         | H : technical _ |- _ => apply technical_after_orchestrator in H
         end.
Qed.

Lemma node_failure_not_label state e label :
  node_failure state e → e ≠ UnknownRoutingLabel label.
Proof. intros [[_ ->]|[f ->]]; discriminate. Qed.

(** A failed run of [workflow] ran out of budget or failed inside a node. *)
Lemma run_shape_error limit state w e visited w' :
  run_shape limit state w (Err e, visited, w') →
  e = StepLimitExceeded ∨ ∃ state0, node_failure state0 e.
Proof.
  inversion 1; subst; eauto using orchestrator_node_Err,
    analyzer_node_Err, responder_node_Err.
Qed.

(** C2. When the reply to the classification prompt, once normalized, is
    none of the three categories, [orchestrator_node] does not fail: it
    sets [query_type] to ["general"] and asks for the responder, and no
    run from that state invokes the analyzer. *)
Theorem unrecognized_defaults_to_general (state : State)
    (query content : string) (w w1 : World) :
  state !! "user_query" = Some query →
  llm_invoke (classification_prompt query) w = (Content content, w1) →
  normalize content ∉ categories →
  (∃ state', orchestrator_node state w = (Ok state', w1)
     ∧ state' !! "query_type" = Some "general"
     ∧ state' !! "next_step" = Some "responder")
  ∧ ∀ limit r visited w_end,
      run limit workflow state w = (r, visited, w_end) →
      "analyzer" ∉ visited.
Proof.
  intros Hq Hllm Hbad.
  pose proof (orchestrator_node_reply _ _ _ _ _ Hq Hllm) as Ho.
  rewrite (classify_unrecognized _ Hbad) in Ho. split.
  - eexists. split; [exact Ho|]. split.
    + by rewrite lookup_insert_ne, lookup_insert_eq.
    + by rewrite lookup_insert_eq.
  - intros limit r visited w_end Hrun.
    pose proof (run_shape_of limit state w) as Hshape.
    rewrite Hrun in Hshape.
    inversion Hshape; subst; same_calls; try solve_elem;
      by match goal with
         | H : technical _ |- _ =>
             unfold technical in H;
             rewrite lookup_insert_ne, lookup_insert_eq in H
         end.
Qed.

(** C9. Every state returned by [orchestrator_node] has [next_step] equal
    to ["analyzer"] or ["responder"]; [route_after_orchestrator] returns
    that value, which is a key of the mapping of the conditional edge, so
    the edge resolves to a node and no run of the workflow ends with
    [UnknownRoutingLabel]. *)
Theorem routing_label_registered (state state' : State) (w w' : World) :
  orchestrator_node state w = (Ok state', w') →
  ∃ label path_map,
    (label = "analyzer" ∨ label = "responder")
    ∧ state' !! "next_step" = Some label
    ∧ route_after_orchestrator state' = Ok label
    ∧ edges workflow !! "orchestrator"
      = Some (Conditional route_after_orchestrator path_map)
    ∧ path_map !! label = Some (Node label)
    ∧ successor workflow "orchestrator" state' = Ok (Node label)
    ∧ ∀ limit state0 w0 r visited w_end bad,
        run limit workflow state0 w0 = (r, visited, w_end) →
        r ≠ Err (UnknownRoutingLabel bad).
Proof.
  intros (query & content & _ & _ & ->)%orchestrator_node_Ok.
  exists (next_step_of (classify content)). eexists.
  split; [destruct (next_step_of_cases (classify content))
            as [[_ ->]|[_ ->]]; auto|].
  split; [by rewrite lookup_insert_eq|].
  split; [unfold route_after_orchestrator; by rewrite lookup_insert_eq|].
  split; [by rewrite workflow_edges|].
  split; [|split].
  - rewrite path_map_lookup.
    by destruct (next_step_of_cases (classify content)) as [[_ ->]|[_ ->]].
  - unfold successor. rewrite workflow_edges. simpl.
    unfold route_after_orchestrator.
    rewrite lookup_insert_eq, path_map_lookup.
    by destruct (next_step_of_cases (classify content)) as [[_ ->]|[_ ->]].
  - intros limit state0 w0 r visited w_end bad Hrun ->.
    pose proof (run_shape_of limit state0 w0) as Hshape.
    rewrite Hrun in Hshape.
    apply run_shape_error in Hshape as [?|[? Hf]]; [done|].
    by eapply node_failure_not_label.
Qed.

(** C10. In the final state of a run of the workflow, when [query_type]
    is not ["technical"] the field [analysis] still has the value it had
    in the initial state (the empty string for the state [run_query]
    starts from), and the analyzer was not invoked. *)
Theorem analysis_untouched (limit : nat) (state final : State)
    (w w_end : World) (visited : list string) :
  run limit workflow state w = (Ok final, visited, w_end) →
  final !! "query_type" ≠ Some "technical" →
  final !! "analysis" = state !! "analysis"
  ∧ ("analyzer" ∉ visited)
  ∧ ∀ query, state = initial_state query → final !! "analysis" = Some "".
Proof.
  intros Hrun Hqt.
  pose proof (run_shape_of limit state w) as Hshape.
  rewrite Hrun in Hshape.
  assert (final !! "analysis" = state !! "analysis"
          ∧ "analyzer" ∉ visited) as [Ha Hv].
  { inversion Hshape; subst.
    - exfalso. apply Hqt.
      repeat match goal with
        | H : orchestrator_node _ _ = _ |- _ =>
            apply orchestrator_node_Ok in H as (? & ? & _ & _ & ->)
        | H : analyzer_node _ _ = _ |- _ =>
            apply analyzer_node_Ok in H as (? & ? & _ & _ & ->)
        | H : responder_node _ _ = _ |- _ =>
            apply responder_node_Ok in H as (? & ? & _ & _ & ->)
        end.
      match goal with
      | H : technical _ |- _ =>
          unfold technical in H;
          rewrite lookup_insert_ne, lookup_insert_eq in H by done
      end.
      rewrite !lookup_insert_ne by done. by rewrite lookup_insert_eq.
    - repeat match goal with
        | H : orchestrator_node _ _ = _ |- _ =>
            apply orchestrator_node_Ok in H as (? & ? & _ & _ & ->)
        | H : responder_node _ _ = _ |- _ =>
            apply responder_node_Ok in H as (? & ? & _ & _ & ->)
        end.
      split; [by rewrite !lookup_insert_ne by done|solve_elem]. }
  split; [done|]. split; [done|]. intros query ->. by rewrite Ha.
Qed.

(** ** The step limit *)

Lemma engine_budget marker g limit extra current state w r visited w_end :
  engine marker limit g current state w = (r, visited, w_end) →
  (length visited ≤ limit)%nat
  ∧ (engine marker (limit + extra) g current state w = (r, visited, w_end)
     ∨ (r = Err StepLimitExceeded ∧ length visited = limit
        ∧ ∃ r' more w',
            engine marker (limit + extra) g current state w
            = (r', (visited ++ more)%list, w'))).
Proof.
  revert current state w r visited w_end.
  induction limit as [|limit IH]; intros current state w r visited w_end.
  - intros [= <- <- <-]. split; [done|]. right.
    destruct (engine marker (0 + extra) g current state w)
      as [[r' more] w'] eqn:He.
    split; [done|]. split; [done|]. by exists r', more, w'.
  - change (S limit + extra)%nat with (S (limit + extra)).
    rewrite !engine_S.
    destruct (nodes g !! current) as [apply|];
      [|intros [= <- <- <-]; split; [simpl; lia|by left]].
    destruct (apply state w) as [[state'|e] w1];
      [|intros [= <- <- <-]; split; [simpl; lia|by left]].
    destruct (marker && _);
      [intros [= <- <- <-]; split; [simpl; lia|by left]|].
    destruct (successor g current state') as [[|next]|e];
      try (intros [= <- <- <-]; split; [simpl; lia|by left]).
    destruct (engine marker limit g next state' w1)
      as [[r0 visited0] w0] eqn:He.
    intros [= <- <- <-].
    destruct (IH _ _ _ _ _ _ He) as [Hlen [Hsame|(-> & Hfull & Hmore)]].
    + split; [simpl; lia|]. left. by rewrite Hsame.
    + split; [simpl; lia|]. right.
      destruct Hmore as (r' & more & w' & Hmore).
      split; [done|]. split; [simpl; lia|].
      exists r', more, w'. by rewrite Hmore.
Qed.

(** The spinning graph never reaches the terminal marker: every budget
    is used up and the run ends with [StepLimitExceeded]. *)
Lemma spinning_hits_limit limit state w :
  state !! "next_step" ≠ Some "end" →
  run limit spinning state w
  = (Err StepLimitExceeded, replicate limit "spin", w).
Proof.
  intros Hns. unfold run. change (entry_point spinning) with (Some "spin").
  induction limit as [|limit IH]; [done|].
  rewrite engine_S.
  change (nodes spinning !! "spin") with (Some (λ s : State, @ret State s)).
  unfold ret at 1. cbv beta iota.
  rewrite bool_decide_eq_false_2, andb_false_r by done.
  change (successor spinning "spin" state) with (@Ok Target (Node "spin")).
  cbv beta iota. by rewrite IH.
Qed.

(** With the recommended budget, twice the number of nodes, no run of
    the reference workflow is cut short. *)
Lemma recommended_limit_suffices state w visited w_end :
  run (2 * size (nodes workflow)) workflow state w
  ≠ (Err StepLimitExceeded, visited, w_end).
Proof.
  replace (size (nodes workflow)) with 3%nat by (by vm_compute).
  intros Hrun. pose proof (run_shape_of (2 * 3) state w) as Hshape.
  rewrite Hrun in Hshape. inversion Hshape; subst; try lia;
    match goal with
    | H : orchestrator_node _ _ = (Err _, _) |- _ =>
        apply orchestrator_node_Err in H as [[_ ?]|[? ?]]
    | H : analyzer_node _ _ = (Err _, _) |- _ =>
        apply analyzer_node_Err in H as [[_ ?]|[? ?]]
    | H : responder_node _ _ = (Err _, _) |- _ =>
        apply responder_node_Err in H as [[_ ?]|[? ?]]
    end; discriminate.
Qed.

(** C4. For every graph, whatever the routing does, a run with step limit
    [limit] returns after at most [limit] node invocations.  Either the
    limit was not reached, and the run is the same under any larger limit,
    or the run is stopped after exactly [limit] invocations with the fatal
    error [StepLimitExceeded], where a run allowed to go on would have
    gone on from the same nodes. *)
Theorem step_limit_enforced (g : StateGraph) (limit extra : nat)
    (state : State) (w w_end : World) r visited :
  run limit g state w = (r, visited, w_end) →
  (length visited ≤ limit)%nat
  ∧ (run (limit + extra) g state w = (r, visited, w_end)
     ∨ (r = Err StepLimitExceeded ∧ length visited = limit
        ∧ ∃ r' more w',
            run (limit + extra) g state w = (r', (visited ++ more)%list, w'))).
Proof.
  unfold run. destruct (entry_point g) as [entry|].
  - apply engine_budget.
  - intros [= <- <- <-]. split; [simpl; lia|by left].
Qed.

(** ** Further properties of the nodes and of the runs *)

Lemma responder_node_reply state w query content w' :
  state !! "user_query" = Some query →
  llm_invoke (response_prompt (dict_get state "analysis" "") query) w
    = (Content content, w') →
  responder_node state w =
    (Ok (<["next_step" := "end"]>
           (<["final_response" := PyStr.strip content]> state)), w').
Proof. intros Hq Hllm. unfold_node. by rewrite Hq, Hllm. Qed.

Lemma registered_node name node :
  nodes workflow !! name = Some node →
  (name = "orchestrator" ∧ node = orchestrator_node)
  ∨ (name = "analyzer" ∧ node = analyzer_node)
  ∨ (name = "responder" ∧ node = responder_node).
Proof.
  rewrite workflow_nodes. repeat case_decide; intros [= <-]; auto.
Qed.

(** The one key a node reads with [state[...]] is [user_query]: without it
    every registered node raises [KeyError] before it calls the model
    client, whose state is left as it was; no other [KeyError] can come
    out of a node; and a run from such a state stops in the orchestrator. *)
Theorem user_query_required (name : string) (node : State → M State)
    (state : State) (w : World) :
  nodes workflow !! name = Some node →
  (state !! "user_query" = None →
     node state w = (Err (KeyError "user_query"), w)
     ∧ ∀ limit,
         run (S limit) workflow state w
         = (Err (KeyError "user_query"), ["orchestrator"], w))
  ∧ (∀ key w', node state w = (Err (KeyError key), w') →
       key = "user_query" ∧ state !! "user_query" = None ∧ w' = w).
Proof.
  intros Hnode. split.
  - intros Hnone. split.
    + apply registered_node in Hnode as [[_ ->]|[[_ ->]|[_ ->]]];
        unfold_node; by rewrite Hnone.
    + intros limit. unfold run. rewrite workflow_entry, engine_at_orchestrator.
      unfold_node. by rewrite Hnone.
  - intros key w'.
    apply registered_node in Hnode as [[_ ->]|[[_ ->]|[_ ->]]]; unfold_node;
      (destruct (state !! "user_query") as [query|];
       [destruct (llm_invoke _ w) as [[content|f] w1]; intros [=]
       |by intros [= <- <-]]).
Qed.

(** What each node writes into [next_step] is the successor that the edges
    of the graph choose: the control field and the wiring never disagree.
    ["end"] goes with [END], any other value with the node of that name. *)
Theorem next_step_matches_edges (name : string) (node : State → M State)
    (state state' : State) (w w' : World) :
  nodes workflow !! name = Some node →
  node state w = (Ok state', w') →
  ∃ label,
    state' !! "next_step" = Some label
    ∧ successor workflow name state'
      = Ok (if String.eqb label "end" then END else Node label)
    ∧ (label = "end" ∨ is_Some (nodes workflow !! label)).
Proof.
  intros Hnode Hrun.
  apply registered_node in Hnode as [[-> ->]|[[-> ->]|[-> ->]]].
  - apply orchestrator_node_Ok in Hrun as (query & content & _ & _ & ->).
    exists (next_step_of (classify content)).
    rewrite lookup_insert_eq. split; [done|].
    unfold successor. rewrite workflow_edges, workflow_nodes. simpl.
    unfold route_after_orchestrator. rewrite lookup_insert_eq, path_map_lookup.
    destruct (next_step_of_cases (classify content)) as [[_ ->]|[_ ->]];
      (split; [done|right; by eexists]).
  - apply analyzer_node_Ok in Hrun as (query & content & _ & _ & ->).
    exists "responder". rewrite lookup_insert_eq. split; [done|].
    unfold successor. rewrite workflow_edges, workflow_nodes.
    split; [done|right; by eexists].
  - apply responder_node_Ok in Hrun as (query & content & _ & _ & ->).
    exists "end". rewrite lookup_insert_eq. split; [done|].
    unfold successor. rewrite workflow_edges. split; [done|by left].
Qed.

Lemma well_formed_after_orchestrator state w state' w' :
  well_formed state → orchestrator_node state w = (Ok state', w') →
  well_formed state'.
Proof.
  intros Hwf (? & ? & _ & _ & ->)%orchestrator_node_Ok.
  by do 2 apply well_formed_insert.
Qed.

Lemma well_formed_after_analyzer state w state' w' :
  well_formed state → analyzer_node state w = (Ok state', w') →
  well_formed state'.
Proof.
  intros Hwf (? & ? & _ & _ & ->)%analyzer_node_Ok.
  by do 2 apply well_formed_insert.
Qed.

Lemma well_formed_after_responder state w state' w' :
  well_formed state → responder_node state w = (Ok state', w') →
  well_formed state'.
Proof.
  intros Hwf (? & ? & _ & _ & ->)%responder_node_Ok.
  by do 2 apply well_formed_insert.
Qed.

(** The state that a completed [run_query] returns: every field is there,
    [user_query] is still the query, [query_type] is one of the three
    categories, [next_step] is ["end"], and the responder was the last node
    invoked. *)
Theorem completed_run_state (limit : nat) (query : string) (final : State)
    (w w_end : World) (visited : list string) :
  run_query limit workflow query w = (Ok final, visited, w_end) →
  well_formed final
  ∧ final !! "user_query" = Some query
  ∧ final !! "next_step" = Some "end"
  ∧ (∃ query_type,
       final !! "query_type" = Some query_type ∧ query_type ∈ categories)
  ∧ last visited = Some "responder".
Proof.
  intros Hrun. unfold run_query in Hrun.
  pose proof (run_shape_of limit (initial_state query) w) as Hshape.
  rewrite Hrun in Hshape.
  pose proof (initial_state_well_formed query) as Hwf.
  pose proof (initial_state_user_query query) as Hq.
  assert (∀ content, classify content ∈ categories) as Hcat.
  { intros content. unfold categories.
    destruct (classify_cases content) as [-> | [-> | ->]]; solve_elem. }
  inversion Hshape; subst;
    repeat match goal with
      | H : orchestrator_node _ _ = (Ok _, _) |- _ =>
          apply orchestrator_node_Ok in H as (? & ? & _ & _ & ->)
      | H : analyzer_node _ _ = (Ok _, _) |- _ =>
          apply analyzer_node_Ok in H as (? & ? & _ & _ & ->)
      | H : responder_node _ _ = (Ok _, _) |- _ =>
          apply responder_node_Ok in H as (? & ? & _ & _ & ->)
      end.
  - split; [by do 6 apply well_formed_insert|].
    split; [by rewrite !lookup_insert_ne|].
    split; [by rewrite lookup_insert_eq|]. split; [|done].
    eexists. split; [|apply Hcat].
    rewrite !lookup_insert_ne by done. by rewrite lookup_insert_eq.
  - split; [by do 4 apply well_formed_insert|].
    split; [by rewrite !lookup_insert_ne|].
    split; [by rewrite lookup_insert_eq|]. split; [|done].
    eexists. split; [|apply Hcat].
    rewrite !lookup_insert_ne by done. by rewrite lookup_insert_eq.
Qed.

(** In a completed run, from any state, the analyzer was invoked exactly
    when the final [query_type] is ["technical"], and the final
    [query_type] fixes the whole path. *)
Theorem analyzer_iff_technical (limit : nat) (state final : State)
    (w w_end : World) (visited : list string) :
  run limit workflow state w = (Ok final, visited, w_end) →
  ("analyzer" ∈ visited ↔ final !! "query_type" = Some "technical")
  ∧ visited = (if bool_decide (final !! "query_type" = Some "technical")
               then ["orchestrator"; "analyzer"; "responder"]
               else ["orchestrator"; "responder"]).
Proof.
  intros Hrun.
  pose proof (run_shape_of limit state w) as Hshape.
  rewrite Hrun in Hshape.
  inversion Hshape as [| | | | | |? ? ? ? ? ? ? ? Htech| |? ? ? ? ? ? Htech];
    subst; unfold technical in Htech;
    repeat match goal with
      | H : orchestrator_node _ _ = (Ok _, _) |- _ =>
          apply orchestrator_node_Ok in H as (? & ? & _ & _ & ->)
      | H : analyzer_node _ _ = (Ok _, _) |- _ =>
          apply analyzer_node_Ok in H as (? & ? & _ & _ & ->)
      | H : responder_node _ _ = (Ok _, _) |- _ =>
          apply responder_node_Ok in H as (? & ? & _ & _ & ->)
      end.
  - rewrite lookup_insert_ne, lookup_insert_eq in Htech by done.
    rewrite !lookup_insert_ne by done. rewrite !lookup_insert_eq.
    split; [split; [done|solve_elem]|]. by rewrite bool_decide_eq_true_2.
  - rewrite lookup_insert_ne, lookup_insert_eq in Htech by done.
    rewrite !lookup_insert_ne by done. rewrite !lookup_insert_eq.
    split; [split; [solve_elem|done]|]. by rewrite bool_decide_eq_false_2.
Qed.

(** The run from any state that has [user_query], when the classification
    is technical and the three calls return replies. *)
Lemma run_technical (limit : nat) (state : State) (query : string)
    (classification analysis response : string) (w w1 w2 w3 : World) :
  (3 ≤ limit)%nat →
  state !! "user_query" = Some query →
  llm_invoke (classification_prompt query) w = (Content classification, w1) →
  classify classification = "technical" →
  llm_invoke (analysis_prompt query) w1 = (Content analysis, w2) →
  llm_invoke (response_prompt (PyStr.strip analysis) query) w2
    = (Content response, w3) →
  run limit workflow state w
  = (Ok (<["next_step" := "end"]>
           (<["final_response" := PyStr.strip response]>
              (<["next_step" := "responder"]>
                 (<["analysis" := PyStr.strip analysis]>
                    (<["next_step" := "analyzer"]>
                       (<["query_type" := "technical"]> state)))))),
     ["orchestrator"; "analyzer"; "responder"], w3).
Proof.
  intros Hlimit Hq Hc Htech Ha Hr.
  destruct limit as [|[|[|limit]]]; try lia.
  unfold run. rewrite workflow_entry, engine_at_orchestrator.
  rewrite (orchestrator_node_reply _ _ _ _ _ Hq Hc), Htech. cbv zeta.
  rewrite lookup_insert_ne, lookup_insert_eq, bool_decide_eq_true_2 by done.
  rewrite engine_at_analyzer.
  erewrite analyzer_node_reply;
    [|by rewrite !lookup_insert_ne by done|exact Ha].
  rewrite engine_at_responder.
  erewrite responder_node_reply;
    [|by rewrite !lookup_insert_ne by done
     |unfold dict_get; rewrite lookup_insert_ne, lookup_insert_eq by done;
      exact Hr].
  done.
Qed.

(** A technical query, end to end: when the three model calls return
    replies, the run goes through the three nodes, the client is called
    three times in a row, and the final state holds the stripped analysis
    and the stripped response.  The responder is asked with the prompt
    chosen for the stripped analysis. *)
Theorem technical_run (limit : nat) (query : string)
    (classification analysis response : string) (w w1 w2 w3 : World) :
  (3 ≤ limit)%nat →
  llm_invoke (classification_prompt query) w = (Content classification, w1) →
  classify classification = "technical" →
  llm_invoke (analysis_prompt query) w1 = (Content analysis, w2) →
  llm_invoke (response_prompt (PyStr.strip analysis) query) w2
    = (Content response, w3) →
  ∃ final,
    run_query limit workflow query w
    = (Ok final, ["orchestrator"; "analyzer"; "responder"], w3)
    ∧ final !! "user_query" = Some query
    ∧ final !! "query_type" = Some "technical"
    ∧ final !! "analysis" = Some (PyStr.strip analysis)
    ∧ final !! "final_response" = Some (PyStr.strip response)
    ∧ final !! "next_step" = Some "end".
Proof.
  intros Hlimit Hc Htech Ha Hr. unfold run_query.
  rewrite (run_technical limit _ query classification analysis response
             w w1 w2 w3 Hlimit (initial_state_user_query query)
             Hc Htech Ha Hr).
  eexists. split; [reflexivity|].
  split; [rewrite !lookup_insert_ne by done; apply initial_state_user_query|].
  split; [rewrite !lookup_insert_ne by done; by rewrite lookup_insert_eq|].
  split; [rewrite !lookup_insert_ne by done; by rewrite lookup_insert_eq|].
  split; [by rewrite lookup_insert_ne, lookup_insert_eq|].
  by rewrite lookup_insert_eq.
Qed.

(** The run from any state that has [user_query], when the classification
    is not technical and the two calls return replies. *)
Lemma run_plain (limit : nat) (state : State) (query : string)
    (classification response : string) (w w1 w2 : World) :
  (2 ≤ limit)%nat →
  state !! "user_query" = Some query →
  llm_invoke (classification_prompt query) w = (Content classification, w1) →
  classify classification ≠ "technical" →
  llm_invoke (response_prompt (dict_get state "analysis" "") query) w1
    = (Content response, w2) →
  run limit workflow state w
  = (Ok (<["next_step" := "end"]>
           (<["final_response" := PyStr.strip response]>
              (<["next_step" := "responder"]>
                 (<["query_type" := classify classification]> state)))),
     ["orchestrator"; "responder"], w2).
Proof.
  intros Hlimit Hq Hc Hother Hr.
  destruct limit as [|[|limit]]; try lia.
  unfold run. rewrite workflow_entry, engine_at_orchestrator.
  rewrite (orchestrator_node_reply _ _ _ _ _ Hq Hc). cbv zeta.
  rewrite lookup_insert_ne, lookup_insert_eq by done.
  rewrite bool_decide_eq_false_2 by congruence.
  destruct (next_step_of_cases (classify classification))
    as [[Htech _]|[_ ->]]; [done|].
  rewrite engine_at_responder.
  erewrite responder_node_reply;
    [|by rewrite !lookup_insert_ne by done
     |unfold dict_get in *; rewrite !lookup_insert_ne by done; exact Hr].
  done.
Qed.

(** Any other query, end to end: when the two model calls return replies,
    the run goes from the orchestrator to the responder, which is asked with
    the plain prompt; the client is called twice; [analysis] stays empty and
    the final state holds the category and the stripped response. *)
Theorem plain_run (limit : nat) (query : string)
    (classification response : string) (w w1 w2 : World) :
  (2 ≤ limit)%nat →
  llm_invoke (classification_prompt query) w = (Content classification, w1) →
  classify classification ≠ "technical" →
  llm_invoke (plain_prompt query) w1 = (Content response, w2) →
  ∃ final,
    run_query limit workflow query w
    = (Ok final, ["orchestrator"; "responder"], w2)
    ∧ final !! "user_query" = Some query
    ∧ final !! "query_type" = Some (classify classification)
    ∧ final !! "analysis" = Some ""
    ∧ final !! "final_response" = Some (PyStr.strip response)
    ∧ final !! "next_step" = Some "end".
Proof.
  intros Hlimit Hc Hother Hr. unfold run_query.
  rewrite (run_plain limit _ query classification response w w1 w2
             Hlimit (initial_state_user_query query) Hc Hother Hr).
  eexists. split; [reflexivity|].
  split; [rewrite !lookup_insert_ne by done; apply initial_state_user_query|].
  split; [rewrite !lookup_insert_ne by done; by rewrite lookup_insert_eq|].
  split; [by rewrite !lookup_insert_ne by done|].
  split; [by rewrite lookup_insert_ne, lookup_insert_eq|].
  by rewrite lookup_insert_eq.
Qed.

(** A blank analysis is dropped: when the reply of the analyzer strips to
    the empty string, the responder is asked with the plain prompt, as on
    the path without analysis, although [query_type] says ["technical"]. *)
Theorem blank_analysis_is_dropped (limit : nat) (query : string)
    (classification analysis response : string) (w w1 w2 w3 : World) :
  (3 ≤ limit)%nat →
  llm_invoke (classification_prompt query) w = (Content classification, w1) →
  classify classification = "technical" →
  llm_invoke (analysis_prompt query) w1 = (Content analysis, w2) →
  PyStr.strip analysis = "" →
  llm_invoke (plain_prompt query) w2 = (Content response, w3) →
  ∃ final,
    run_query limit workflow query w
    = (Ok final, ["orchestrator"; "analyzer"; "responder"], w3)
    ∧ final !! "query_type" = Some "technical"
    ∧ final !! "analysis" = Some ""
    ∧ final !! "final_response" = Some (PyStr.strip response).
Proof.
  intros Hlimit Hc Htech Ha Hblank Hr. unfold run_query.
  rewrite (run_technical limit _ query classification analysis response
             w w1 w2 w3 Hlimit (initial_state_user_query query)
             Hc Htech Ha);
    [|by rewrite Hblank].
  rewrite Hblank. eexists. split; [reflexivity|].
  split; [rewrite !lookup_insert_ne by done; by rewrite lookup_insert_eq|].
  split; [rewrite !lookup_insert_ne by done; by rewrite lookup_insert_eq|].
  by rewrite lookup_insert_ne, lookup_insert_eq.
Qed.

(** With a step budget of at least 3, [run_query] fails only when a call
    to the model client fails: never with a [KeyError], a routing or a
    validation error, or [StepLimitExceeded]. *)
Theorem run_query_fails_on_model_only (limit : nat) (query : string)
    (e : Error) (w w_end : World) (visited : list string) :
  (3 ≤ limit)%nat →
  run_query limit workflow query w = (Err e, visited, w_end) →
  ∃ f, e = ModelFailed f.
Proof.
  intros Hlimit Hrun. unfold run_query in Hrun.
  pose proof (run_shape_of limit (initial_state query) w) as Hshape.
  rewrite Hrun in Hshape.
  pose proof (initial_state_well_formed query) as Hwf.
  inversion Hshape; subst; try lia.
  - eapply node_failure_well_formed; [|by eapply orchestrator_node_Err]. done.
  - eapply node_failure_well_formed; [|by eapply analyzer_node_Err].
    by eapply well_formed_after_orchestrator.
  - eapply node_failure_well_formed; [|by eapply responder_node_Err].
    eapply well_formed_after_analyzer; [|done].
    by eapply well_formed_after_orchestrator.
  - eapply node_failure_well_formed; [|by eapply responder_node_Err].
    by eapply well_formed_after_orchestrator.
Qed.

(** Against a model client that always replies, [run_query] with a step
    budget of at least 3 always returns a final state: the responder was
    the last node invoked, [next_step] is ["end"], [query_type] is a
    category, and [final_response] is the stripped reply of the last call
    to the client, a call whose prompt contains the query. *)
Theorem run_query_completes (limit : nat) (query : string) (w : World) :
  (∀ prompt w0, ∃ content w1, llm_invoke prompt w0 = (Content content, w1)) →
  (3 ≤ limit)%nat →
  ∃ final visited w_end,
    run_query limit workflow query w = (Ok final, visited, w_end)
    ∧ final !! "final_response" ≠ None
    ∧ last visited = Some "responder"
    ∧ final !! "user_query" = Some query
    ∧ final !! "next_step" = Some "end"
    ∧ (∃ query_type,
         final !! "query_type" = Some query_type ∧ query_type ∈ categories)
    ∧ ∃ prompt response w_before,
        llm_invoke prompt w_before = (Content response, w_end)
        ∧ PyStr.contains prompt query
        ∧ final !! "final_response" = Some (PyStr.strip response).
Proof.
  intros Hreplies Hlimit. unfold run_query.
  pose proof (initial_state_user_query query) as Hq.
  assert (∀ analysis, PyStr.contains (response_prompt analysis query) query)
    as Hcontains.
  { intros analysis. unfold response_prompt, grounded_prompt, plain_prompt.
    destruct (PyStr.truthy analysis); [|by eexists _, _].
    eexists ("Based on this analysis:
" +:+ analysis +:+ "

Provide a clear, helpful response to the user's query: "), _.
    by rewrite !append_assoc. }
  destruct (Hreplies (classification_prompt query) w) as (c & w1 & Hc).
  destruct (decide (classify c = "technical")) as [Htech|Hother].
  - destruct (Hreplies (analysis_prompt query) w1) as (a & w2 & Ha).
    destruct (Hreplies (response_prompt (PyStr.strip a) query) w2)
      as (r & w3 & Hr).
    rewrite (run_technical limit _ query c a r w w1 w2 w3
               Hlimit Hq Hc Htech Ha Hr).
    eexists _, _, _. split; [reflexivity|].
    split; [by rewrite lookup_insert_ne, lookup_insert_eq|].
    split; [done|].
    split; [by rewrite !lookup_insert_ne by done|].
    split; [by rewrite lookup_insert_eq|].
    split.
    { exists "technical". rewrite !lookup_insert_ne by done.
      rewrite lookup_insert_eq. split; [done|].
      unfold categories. solve_elem. }
    exists (response_prompt (PyStr.strip a) query), r, w2.
    split; [exact Hr|]. split; [apply Hcontains|].
    by rewrite lookup_insert_ne, lookup_insert_eq.
  - destruct (Hreplies (plain_prompt query) w1) as (r & w2 & Hr).
    rewrite (run_plain limit _ query c r w w1 w2
               ltac:(lia) Hq Hc Hother Hr).
    eexists _, _, _. split; [reflexivity|].
    split; [by rewrite lookup_insert_ne, lookup_insert_eq|].
    split; [done|].
    split; [by rewrite !lookup_insert_ne by done|].
    split; [by rewrite lookup_insert_eq|].
    split.
    { exists (classify c). rewrite !lookup_insert_ne by done.
      rewrite lookup_insert_eq. split; [done|].
      unfold categories.
      destruct (classify_cases c) as [-> | [-> | ->]]; solve_elem. }
    exists (plain_prompt query), r, w1.
    split; [exact Hr|]. split; [apply (Hcontains "")|].
    by rewrite lookup_insert_ne, lookup_insert_eq.
Qed.

End Workflow.

(** ** Determinism *)

Section Determinism.

(** Two model clients, possibly of different kinds, and a relation
    between their states under which they give the same replies. *)
Context {W1 W2 : Type}.
Variable llm1 : string → W1 → Reply * W1.
Variable llm2 : string → W2 → Reply * W2.
Variable related : W1 → W2 → Prop.
Hypothesis same_replies : ∀ prompt w1 w2,
  related w1 w2 →
  (llm1 prompt w1).1 = (llm2 prompt w2).1
  ∧ related (llm1 prompt w1).2 (llm2 prompt w2).2.

Lemma llm_alike prompt w1 w2 :
  related w1 w2 → alike related (llm llm1 prompt w1) (llm llm2 prompt w2).
Proof.
  intros Hrel. destruct (same_replies prompt w1 w2 Hrel) as [Hreply Hnext].
  unfold llm, alike.
  destruct (llm1 prompt w1) as [[c1|f1] w1'], (llm2 prompt w2) as [[c2|f2] w2'];
    simpl in *; by simplify_eq.
Qed.

Ltac node_alike :=
  intros Hrel;
  unfold orchestrator_node, analyzer_node, responder_node,
    mbind, M_bind, bind, getitem, ret, raise;
  match goal with
  | |- context [?state !! "user_query"] =>
      destruct (state !! "user_query") as [query|]; [|done]
  end;
  match goal with
  | |- context [llm llm1 ?prompt ?w1] =>
      match goal with
      | |- context [llm llm2 prompt ?w2] =>
          destruct (llm_alike prompt w1 w2 Hrel) as [Hreply Hnext];
          destruct (llm llm1 prompt w1) as [[c1|e1] w1'],
                   (llm llm2 prompt w2) as [[c2|e2] w2'];
          simpl in *; by simplify_eq
      end
  end.

Lemma orchestrator_alike state w1 w2 :
  related w1 w2 →
  alike related (orchestrator_node llm1 state w1) (orchestrator_node llm2 state w2).
Proof. node_alike. Qed.

Lemma analyzer_alike state w1 w2 :
  related w1 w2 →
  alike related (analyzer_node llm1 state w1) (analyzer_node llm2 state w2).
Proof. node_alike. Qed.

Lemma responder_alike state w1 w2 :
  related w1 w2 →
  alike related (responder_node llm1 state w1) (responder_node llm2 state w2).
Proof. node_alike. Qed.

Lemma run_alike limit state w1 w2 :
  related w1 w2 →
  alike related (run limit (workflow llm1) state w1)
        (run limit (workflow llm2) state w2).
Proof.
  intros Hrel. unfold run. rewrite !workflow_entry.
  destruct limit as [|limit]; [done|]. rewrite !engine_at_orchestrator.
  destruct (orchestrator_alike state w1 w2 Hrel) as [Heq Hrel1].
  destruct (orchestrator_node llm1 state w1) as [[s1|e1] w1'],
           (orchestrator_node llm2 state w2) as [[s1'|e1'] w2'];
    simpl in Heq, Hrel1; simplify_eq; [|done].
  cbv zeta. case_bool_decide.
  - destruct limit as [|limit]; [done|]. rewrite !engine_at_analyzer.
    destruct (analyzer_alike s1' w1' w2' Hrel1) as [Heq Hrel2].
    destruct (analyzer_node llm1 s1' w1') as [[s2|e2] w1''],
             (analyzer_node llm2 s1' w2') as [[s2'|e2'] w2''];
      simpl in Heq, Hrel2; simplify_eq; [|done].
    destruct limit as [|limit]; [done|]. rewrite !engine_at_responder.
    destruct (responder_alike s2' w1'' w2'' Hrel2) as [Heq Hrel3].
    destruct (responder_node llm1 s2' w1'') as [[s3|e3] w1'''],
             (responder_node llm2 s2' w2'') as [[s3'|e3'] w2'''];
      simpl in Heq, Hrel3; by simplify_eq.
  - destruct limit as [|limit]; [done|]. rewrite !engine_at_responder.
    destruct (responder_alike s1' w1' w2' Hrel1) as [Heq Hrel3].
    destruct (responder_node llm1 s1' w1') as [[s3|e3] w1'''],
             (responder_node llm2 s1' w2') as [[s3'|e3'] w2'''];
      simpl in Heq, Hrel3; by simplify_eq.
Qed.

End Determinism.

(** ** Properties of [strip], [lower] and of the classification *)

Lemma lstrip_app (s t : string) :
  PyStr.lstrip (s +:+ t)
  = if blank s then PyStr.lstrip t else PyStr.lstrip s +:+ t.
Proof.
  induction s as [|c s IH]; [done|].
  change (String c s +:+ t) with (String c (s +:+ t)). cbn [PyStr.lstrip blank].
  destruct (PyStr.isspace c); [exact IH|done].
Qed.

Lemma rstrip_blank (s : string) : blank s = true → PyStr.rstrip s = "".
Proof.
  induction s as [|c s IH]; [done|]. cbn [blank PyStr.rstrip].
  intros [Hc Hs]%andb_prop. by rewrite (IH Hs), Hc.
Qed.

Lemma rstrip_app_blank (s t : string) :
  blank t = true → PyStr.rstrip (s +:+ t) = PyStr.rstrip s.
Proof.
  intros Ht. induction s as [|c s IH]; [by apply rstrip_blank|].
  change (String c s +:+ t) with (String c (s +:+ t)). cbn [PyStr.rstrip].
  by rewrite IH.
Qed.

Lemma lstrip_blank (s : string) : blank s = true → PyStr.lstrip s = "".
Proof.
  induction s as [|c s IH]; [done|]. cbn [blank PyStr.lstrip].
  intros [Hc Hs]%andb_prop. by rewrite Hc, (IH Hs).
Qed.

Lemma strip_surrounded (before s after : string) :
  blank before = true → blank after = true →
  PyStr.strip (before +:+ s +:+ after) = PyStr.strip s.
Proof.
  intros Hb Ha. unfold PyStr.strip.
  rewrite lstrip_app, Hb, lstrip_app.
  destruct (blank s) eqn:Hs.
  - by rewrite (lstrip_blank after), (lstrip_blank s).
  - by apply rstrip_app_blank.
Qed.

Lemma isspace_lower_char (c : ascii) :
  PyStr.isspace (PyStr.lower_char c) = PyStr.isspace c.
Proof. by destruct c as [[] [] [] [] [] [] [] []]. Qed.

Lemma lower_lstrip (s : string) :
  PyStr.lower (PyStr.lstrip s) = PyStr.lstrip (PyStr.lower s).
Proof.
  induction s as [|c s IH]; [done|]. cbn [PyStr.lstrip PyStr.lower].
  rewrite isspace_lower_char. by destruct (PyStr.isspace c).
Qed.

Lemma lower_rstrip (s : string) :
  PyStr.lower (PyStr.rstrip s) = PyStr.rstrip (PyStr.lower s).
Proof.
  induction s as [|c s IH]; [done|]. cbn [PyStr.rstrip PyStr.lower].
  rewrite <-IH, isspace_lower_char.
  destruct (PyStr.rstrip s); [by destruct (PyStr.isspace c)|done].
Qed.

Lemma lower_strip (s : string) :
  PyStr.lower (PyStr.strip s) = PyStr.strip (PyStr.lower s).
Proof. unfold PyStr.strip. by rewrite lower_rstrip, lower_lstrip. Qed.

(** The classification looks at the reply up to surrounding whitespace and
    up to letter case: whitespace before and after the word does not change
    the category, and two replies with the same lower-case form get the
    same category. *)
Theorem classify_insensitive (content : string) :
  (∀ before after,
     blank before = true → blank after = true →
     classify (before +:+ content +:+ after) = classify content)
  ∧ (∀ other,
       PyStr.lower other = PyStr.lower content →
       classify other = classify content).
Proof.
  split.
  - intros before after Hb Ha. unfold classify, normalize.
    by rewrite strip_surrounded.
  - intros other Hlower. unfold classify, normalize.
    by rewrite !lower_strip, Hlower.
Qed.

Lemma lstrip_head (s : string) c r :
  PyStr.lstrip s = String c r → PyStr.isspace c = false.
Proof.
  induction s as [|x s IH]; [done|]. cbn [PyStr.lstrip].
  destruct (PyStr.isspace x) eqn:Hx; [exact IH|]. by intros [= <- _].
Qed.

Lemma rstrip_head (s : string) c r :
  PyStr.rstrip s = String c r → ∃ r0, s = String c r0.
Proof.
  destruct s as [|x s]; [done|]. cbn [PyStr.rstrip].
  destruct (PyStr.rstrip s); [destruct (PyStr.isspace x)|];
    intros [=]; subst; eauto.
Qed.

Lemma rstrip_last (s : string) r c :
  PyStr.rstrip s = r +:+ String c "" → PyStr.isspace c = false.
Proof.
  revert r. induction s as [|x s IH]; intros r.
  - by destruct r.
  - cbn [PyStr.rstrip]. destruct (PyStr.rstrip s) as [|y t] eqn:Hs.
    + destruct (PyStr.isspace x) eqn:Hx; [by destruct r|].
      destruct r as [|a [|b r]]; intros [=]; by subst.
    + destruct r as [|a r]; [by intros [=]|].
      intros [= _ Ht]. by eapply IH.
Qed.

Lemma strip_trimmed (s : string) : trimmed (PyStr.strip s).
Proof.
  unfold PyStr.strip. split.
  - intros c r [r0 Hl]%rstrip_head. by eapply lstrip_head.
  - intros r c. apply rstrip_last.
Qed.

(** The texts that the analyzer and the responder store are trimmed: the
    [analysis] and the [final_response] of the state they return neither
    begin nor end with whitespace. *)
Theorem stored_text_trimmed {World : Type}
    (llm_invoke : string → World → Reply * World)
    (state state' : State) (w w' : World) :
  (analyzer_node llm_invoke state w = (Ok state', w') →
     ∃ analysis, state' !! "analysis" = Some analysis ∧ trimmed analysis)
  ∧ (responder_node llm_invoke state w = (Ok state', w') →
       ∃ final_response,
         state' !! "final_response" = Some final_response
         ∧ trimmed final_response).
Proof.
  split.
  - intros (query & content & _ & _ & ->)%analyzer_node_Ok.
    exists (PyStr.strip content).
    split; [by rewrite lookup_insert_ne, lookup_insert_eq|].
    apply strip_trimmed.
  - intros (query & content & _ & _ & ->)%responder_node_Ok.
    exists (PyStr.strip content).
    split; [by rewrite lookup_insert_ne, lookup_insert_eq|].
    apply strip_trimmed.
Qed.

(** ** Counting the calls to the model client *)

Section Recording.

Context {World : Type}.
Variable llm_invoke : string → World → Reply * World.

Lemma recording_call prompt w log reply w' log' :
  recording llm_invoke prompt (w, log) = (reply, (w', log')) →
  llm_invoke prompt w = (reply, w') ∧ log' = (log ++ [prompt])%list.
Proof.
  unfold recording. simpl. destruct (llm_invoke prompt w) as [reply0 w0].
  by intros [= -> -> <-].
Qed.

Lemma classification_prompt_contains query :
  PyStr.contains (classification_prompt query) query.
Proof. unfold classification_prompt. by eexists _, _. Qed.

Lemma analysis_prompt_contains query :
  PyStr.contains (analysis_prompt query) query.
Proof. unfold analysis_prompt. by eexists _, _. Qed.

Lemma response_prompt_contains analysis query :
  PyStr.contains (response_prompt analysis query) query.
Proof.
  unfold response_prompt, grounded_prompt, plain_prompt.
  destruct (PyStr.truthy analysis); [|by eexists _, _].
  eexists ("Based on this analysis:
" +:+ analysis +:+ "

Provide a clear, helpful response to the user's query: "), _.
  by rewrite !append_assoc.
Qed.

(** What a node does to the record: with [user_query] in the state, it
    adds one prompt, which contains the query. *)
Lemma node_records_one name node state query w log r w' log' :
  nodes (workflow (recording llm_invoke)) !! name = Some node →
  state !! "user_query" = Some query →
  node state (w, log) = (r, (w', log')) →
  ∃ prompt,
    log' = (log ++ [prompt])%list ∧ PyStr.contains prompt query
    ∧ (name = "orchestrator" → prompt = classification_prompt query).
Proof.
  intros Hnode Hq.
  apply registered_node in Hnode as [[-> ->]|[[-> ->]|[-> ->]]];
    unfold orchestrator_node, analyzer_node, responder_node,
      mbind, M_bind, bind, getitem, llm, ret, raise;
    rewrite Hq;
    match goal with
    | |- context [recording llm_invoke ?p (w, log)] =>
        destruct (recording llm_invoke p (w, log))
          as [reply [w1 log1]] eqn:Hcall;
        apply recording_call in Hcall as [_ ->];
        destruct reply; intros [= _ _ <-]; exists p
    end;
    (split; [done|]; split;
     [auto using classification_prompt_contains, analysis_prompt_contains,
        response_prompt_contains|done]).
Qed.

Lemma recording_transparent limit state w log :
  alike (λ (wl : World * list string) (w0 : World), wl.1 = w0)
    (run limit (workflow (recording llm_invoke)) state (w, log))
    (run limit (workflow llm_invoke) state w).
Proof.
  apply run_alike; [|done].
  intros prompt [w1 log1] w2 Hrel. simpl in Hrel. subst w2.
  unfold recording. simpl. by destruct (llm_invoke prompt w1).
Qed.

Lemma node_keeps_user_query name node state query wl state' wl' :
  nodes (workflow (recording llm_invoke)) !! name = Some node →
  state !! "user_query" = Some query →
  node state wl = (Ok state', wl') →
  state' !! "user_query" = Some query.
Proof.
  intros Hnode Hq Hrun.
  apply registered_node in Hnode as [[-> ->]|[[-> ->]|[-> ->]]].
  - apply orchestrator_node_Ok in Hrun as (? & ? & _ & _ & ->).
    by rewrite !lookup_insert_ne.
  - apply analyzer_node_Ok in Hrun as (? & ? & _ & _ & ->).
    by rewrite !lookup_insert_ne.
  - apply responder_node_Ok in Hrun as (? & ? & _ & _ & ->).
    by rewrite !lookup_insert_ne.
Qed.

Lemma shape_records limit state query w r visited w' log :
  state !! "user_query" = Some query →
  run_shape (recording llm_invoke) limit state (w, []) (r, visited, (w', log)) →
  length log = length visited
  ∧ Forall (λ prompt, PyStr.contains prompt query) log
  ∧ (visited ≠ [] → head log = Some (classification_prompt query)).
Proof.
  intros Hq Hshape.
  assert (nodes (workflow (recording llm_invoke)) !! "orchestrator"
          = Some (orchestrator_node (recording llm_invoke))) as Ho
    by (by rewrite workflow_nodes).
  assert (nodes (workflow (recording llm_invoke)) !! "analyzer"
          = Some (analyzer_node (recording llm_invoke))) as Ha
    by (by rewrite workflow_nodes).
  assert (nodes (workflow (recording llm_invoke)) !! "responder"
          = Some (responder_node (recording llm_invoke))) as Hr
    by (by rewrite workflow_nodes).
  inversion Hshape as
    [ ?
    | e [v1 l1] ? H1
    | s1 [v1 l1] ? H1
    | s1 [v1 l1] e [v2 l2] ? H1 ? H2
    | s1 [v1 l1] s2 [v2 l2] ? H1 ? H2
    | s1 [v1 l1] s2 [v2 l2] e [v3 l3] ? H1 ? H2 H3
    | s1 [v1 l1] s2 [v2 l2] s3 [v3 l3] ? H1 ? H2 H3
    | s1 [v1 l1] e [v2 l2] ? H1 ? H3
    | s1 [v1 l1] s2 [v2 l2] ? H1 ? H3 ]; simplify_eq;
    try (split; [done|split; [by constructor|done]]);
    destruct (node_records_one _ _ _ _ _ _ _ _ _ Ho Hq H1)
      as (p1 & -> & Hc1 & Hp1); specialize (Hp1 eq_refl); subst p1;
    try (pose proof (node_keeps_user_query _ _ _ _ _ _ _ Ho Hq H1) as Hq1);
    try (destruct (node_records_one _ _ _ _ _ _ _ _ _ Ha Hq1 H2)
           as (p2 & -> & Hc2 & _);
         try (pose proof (node_keeps_user_query _ _ _ _ _ _ _ Ha Hq1 H2)
                as Hq2));
    try (first
           [ destruct (node_records_one _ _ _ _ _ _ _ _ _ Hr Hq2 H3)
               as (p3 & -> & Hc3 & _)
           | destruct (node_records_one _ _ _ _ _ _ _ _ _ Hr Hq1 H3)
               as (p3 & -> & Hc3 & _) ]);
    (split; [done|split; [by repeat constructor|done]]).
Qed.

End Recording.

(** A run makes one call to the model client for each node it invokes, so
    at most three; the first prompt is the classification prompt and every
    prompt sent carries the query.  Recording the prompts does not change
    the run. *)
Theorem one_call_per_node {World : Type}
    (llm_invoke : string → World → Reply * World)
    (limit : nat) (query : string) (w w' : World)
    r (visited log : list string) :
  run_query limit (workflow (recording llm_invoke)) query (w, [])
  = (r, visited, (w', log)) →
  run_query limit (workflow llm_invoke) query w = (r, visited, w')
  ∧ length log = length visited
  ∧ (length log ≤ 3)%nat
  ∧ Forall (λ prompt, PyStr.contains prompt query) log
  ∧ (visited ≠ [] → head log = Some (classification_prompt query)).
Proof.
  intros Hrun. unfold run_query in *.
  pose proof (run_shape_of (recording llm_invoke) limit
                (initial_state query) (w, [])) as Hshape.
  rewrite Hrun in Hshape.
  destruct (shape_records llm_invoke limit _ query w r visited w' log
              (initial_state_user_query query) Hshape)
    as (Hlen & Hall & Hhead).
  destruct (run_shape_visited _ _ _ _ _ _ _ Hshape) as (_ & Hlen3 & _).
  destruct (recording_transparent llm_invoke limit (initial_state query) w [])
    as [Hsame Hworld].
  rewrite Hrun in Hsame, Hworld. simpl in Hsame, Hworld.
  destruct (run limit (workflow llm_invoke) (initial_state query) w)
    as [[r2 v2] w2].
  simpl in Hsame, Hworld. simplify_eq.
  split; [done|]. split; [done|]. split; [lia|]. done.
Qed.


(** C7. Against stubbed model clients that return a fixed output for each
    prompt, two runs from the same initial state end with the same outcome
    (the same final state, or the same failure) after visiting the same
    nodes, whatever the internal states of the clients: the run is a
    function of the initial state and of the outputs of the stub. *)
Theorem run_deterministic {W1 W2 : Type}
    (llm1 : string → W1 → Reply * W1) (llm2 : string → W2 → Reply * W2)
    (fixed : string → Reply) :
  (∀ prompt w, (llm1 prompt w).1 = fixed prompt) →
  (∀ prompt w, (llm2 prompt w).1 = fixed prompt) →
  ∀ limit state w1 w2,
    (run limit (workflow llm1) state w1).1
    = (run limit (workflow llm2) state w2).1
    ∧ ∀ query,
        (run_query limit (workflow llm1) query w1).1
        = (run_query limit (workflow llm2) query w2).1.
Proof.
  intros Hfixed1 Hfixed2 limit state w1 w2.
  assert (∀ prompt (v1 : W1) (v2 : W2),
            True →
            (llm1 prompt v1).1 = (llm2 prompt v2).1 ∧ True) as Hsame.
  { intros prompt v1 v2 _. by rewrite Hfixed1, Hfixed2. }
  split.
  - by destruct (run_alike llm1 llm2 (λ _ _, True) Hsame limit state w1 w2).
  - intros query. unfold run_query.
    by destruct (run_alike llm1 llm2 (λ _ _, True) Hsame limit
                   (initial_state query) w1 w2).
Qed.

(** C8. From the initial state built for the query "Explain async/await"
    (every other field empty), with a stub client that answers "technical",
    then "ANALYSIS", then "RESPONSE", the run goes through the three nodes
    and its final state has [final_response] "RESPONSE" and [analysis]
    "ANALYSIS". *)
Theorem end_to_end_example (limit : nat) :
  (3 ≤ limit)%nat →
  initial_state "Explain async/await"
  = {[ "user_query" := "Explain async/await"; "query_type" := "";
       "analysis" := ""; "final_response" := ""; "next_step" := "" ]}
  ∧ ∃ final w_end,
      run_query limit (workflow scripted) "Explain async/await"
        ["technical"; "ANALYSIS"; "RESPONSE"]
      = (Ok final, ["orchestrator"; "analyzer"; "responder"], w_end)
      ∧ final !! "final_response" = Some "RESPONSE"
      ∧ final !! "analysis" = Some "ANALYSIS".
Proof.
  intros Hlimit. split; [by vm_compute|].
  destruct limit as [|[|[|limit]]]; try lia.
  eexists _, _. split; [vm_compute; reflexivity|].
  split; by vm_compute.
Qed.

(** ** The conversation manager *)

Section Conversation.

Import Chat.

Context {World : Type}.
Variable ollama_chat : string → list Message → World → Reply * World.

Abbreviation user text := {| role := "user"; content := text |}.
Abbreviation assistant text := {| role := "assistant"; content := text |}.

Lemma send_message_Ok user_message self w reply self' w' :
  send_message ollama_chat user_message self w = (Ok reply, self', w') →
  ollama_chat (model self) (messages self ++ [user user_message])%list w
  = (Content reply, w')
  ∧ self' = {| model := model self;
               messages := (messages self
                            ++ [user user_message; assistant reply])%list |}.
Proof.
  unfold send_message. simpl.
  destruct (ollama_chat _ _ w) as [[answer|f] w1]; intros [= <- <- <-].
  by rewrite <-(assoc_L (++)).
Qed.

Lemma send_message_Err user_message self w e self' w' :
  send_message ollama_chat user_message self w = (Err e, self', w') →
  ∃ f,
    e = ModelFailed f
    ∧ ollama_chat (model self) (messages self ++ [user user_message])%list w
      = (Failure f, w')
    ∧ self' = {| model := model self;
                 messages := (messages self ++ [user user_message])%list |}.
Proof.
  unfold send_message. simpl.
  destruct (ollama_chat _ _ w) as [[answer|f] w1]; intros [= <- <- <-].
  by exists f.
Qed.

Lemma init_messages model0 system_prompt :
  Forall (λ msg, role msg = "system")
    (messages (__init__ model0 system_prompt))
  ∧ (length (messages (__init__ model0 system_prompt)) ≤ 1)%nat.
Proof.
  unfold __init__. destruct system_prompt as [text|]; simpl;
    [destruct (PyStr.truthy text); simpl|]; split;
    repeat constructor.
Qed.

Lemma filter_system_keeps (l : list Message) :
  Forall (λ msg, role msg = "system") l →
  filter (λ msg, role msg = "system") l = l.
Proof.
  induction 1 as [|msg l Hmsg _ IH]; [done|].
  by rewrite filter_cons_True, IH.
Qed.

Lemma filter_system_drops (l : list Message) :
  Forall (λ msg, role msg ≠ "system") l →
  filter (λ msg, role msg = "system") l = [].
Proof.
  induction 1 as [|msg l Hmsg _ IH]; [done|].
  by rewrite filter_cons_False.
Qed.

(** The shape of every reachable object: the model it was created with,
    and the messages of the new object followed by messages that are not
    system messages. *)
Lemma reachable_shape model0 system_prompt self :
  reachable ollama_chat model0 system_prompt self →
  model self = model0
  ∧ ∃ rest,
      messages self
      = (messages (__init__ model0 system_prompt) ++ rest)%list
      ∧ Forall (λ msg, role msg ≠ "system") rest.
Proof.
  induction 1 as [|self user_message w r self' w' _ [Hmodel (rest & Hm & Hrest)]
                    Hsend
                  |self _ [Hmodel (rest & Hm & Hrest)]].
  - split; [done|]. exists []. by rewrite (right_id_L [] (++)).
  - destruct r as [reply|e].
    + apply send_message_Ok in Hsend as [_ ->]. simpl. split; [done|].
      exists (rest ++ [user user_message; assistant reply])%list.
      rewrite Hm, <-(assoc_L (++)). split; [done|].
      apply Forall_app. split; [done|]. by repeat constructor.
    + apply send_message_Err in Hsend as (f & _ & _ & ->). simpl.
      split; [done|]. exists (rest ++ [user user_message])%list.
      rewrite Hm, <-(assoc_L (++)). split; [done|].
      apply Forall_app. split; [done|]. by repeat constructor.
  - unfold clear_history. simpl. split; [done|]. exists [].
    rewrite Hm, filter_app, (right_id_L [] (++)).
    rewrite (filter_system_drops rest), (right_id_L [] (++)) by done.
    split; [|constructor].
    apply filter_system_keeps.
    exact (proj1 (init_messages model0 system_prompt)).
Qed.

Lemma converses_history self w turns self' w' :
  converses ollama_chat self w turns self' w' →
  model self' = model self
  ∧ messages self' = (messages self ++ transcript turns)%list.
Proof.
  induction 1 as [self w|self w user_message reply self1 w1 turns self2 w2
                              Hsend _ [Hmodel Hm]].
  - split; [done|]. unfold transcript. simpl. by rewrite (right_id_L [] (++)).
  - apply send_message_Ok in Hsend as [_ ->]. simpl in Hmodel, Hm.
    split; [done|]. rewrite Hm. unfold transcript. simpl.
    by rewrite <-(assoc_L (++)).
Qed.

Lemma transcript_length turns : length (transcript turns) = (2 * length turns)%nat.
Proof.
  unfold transcript. induction turns as [|turn turns IH]; [done|].
  simpl in *. lia.
Qed.

(** A conversation of successful turns appends, for each turn, the user
    message and then the reply: the history grows by two messages a turn,
    in the order of the turns, and the model name does not change. *)
Theorem conversation_history self w turns self' w' :
  converses ollama_chat self w turns self' w' →
  messages self' = (messages self ++ transcript turns)%list
  ∧ get_history_length self'
    = (get_history_length self + 2 * length turns)%nat
  ∧ model self' = model self.
Proof.
  intros [Hmodel Hm]%converses_history. split; [done|]. split; [|done].
  unfold get_history_length. rewrite Hm, length_app, transcript_length. done.
Qed.

(** Memory: the request of a turn carries the whole history, that is the
    messages the object started with, every earlier turn, and the new user
    message last. *)
Theorem model_sees_whole_history self w turns self1 w1
    user_message reply self2 w2 :
  converses ollama_chat self w turns self1 w1 →
  send_message ollama_chat user_message self1 w1 = (Ok reply, self2, w2) →
  ollama_chat (model self)
    (messages self ++ transcript turns ++ [user user_message])%list w1
  = (Content reply, w2)
  ∧ converses ollama_chat self w (turns ++ [(user_message, reply)])%list
      self2 w2.
Proof.
  intros Hturns Hsend. split.
  - destruct (converses_history _ _ _ _ _ Hturns) as [Hmodel Hm].
    apply send_message_Ok in Hsend as [Hcall _].
    by rewrite Hmodel, Hm, <-(assoc_L (++)) in Hcall.
  - induction Hturns as [self w|self w u r self1 w1 turns self3 w3 Hfirst _ IH].
    + simpl. econstructor; [exact Hsend|constructor].
    + simpl. econstructor; [exact Hfirst|]. by apply IH.
Qed.

(** A failed call leaves the user message in the history, without a reply:
    the history is one message longer.  Sending the message again then
    puts it in the request, and in the history, twice. *)
Theorem failed_send_keeps_user_message user_message self w e self1 w1 :
  send_message ollama_chat user_message self w = (Err e, self1, w1) →
  messages self1 = (messages self ++ [user user_message])%list
  ∧ get_history_length self1 = S (get_history_length self)
  ∧ ∀ reply self2 w2,
      send_message ollama_chat user_message self1 w1 = (Ok reply, self2, w2) →
      ollama_chat (model self)
        (messages self ++ [user user_message; user user_message])%list w1
      = (Content reply, w2)
      ∧ messages self2
        = (messages self
           ++ [user user_message; user user_message; assistant reply])%list.
Proof.
  intros (f & _ & _ & ->)%send_message_Err. simpl.
  split; [done|]. split.
  { unfold get_history_length. simpl. rewrite length_app. simpl. lia. }
  intros reply self2 w2 [Hcall ->]%send_message_Ok. simpl in *.
  rewrite <-!(assoc_L (++)) in *. by simpl in *.
Qed.

(** Whatever calls were made on it, an object keeps the model it was
    created with, its history starts with the messages it was created with
    (the system prompt, if one was given), and no later message has the
    role ['system']. *)
Theorem system_prompt_stays_first model0 system_prompt self :
  reachable ollama_chat model0 system_prompt self →
  model self = model0
  ∧ ∃ rest,
      messages self
      = (messages (__init__ model0 system_prompt) ++ rest)%list
      ∧ Forall (λ msg, role msg ≠ "system") rest
      ∧ (length (messages (__init__ model0 system_prompt)) ≤ 1)%nat.
Proof.
  intros (Hmodel & rest & Hm & Hrest)%reachable_shape.
  split; [done|]. exists rest. split; [done|]. split; [done|].
  apply init_messages.
Qed.

(** [clear_history] takes an object, whatever calls were made on it, back
    to the object as it was created. *)
Theorem clear_history_resets model0 system_prompt self :
  reachable ollama_chat model0 system_prompt self →
  clear_history self = __init__ model0 system_prompt.
Proof.
  intros (Hmodel & rest & Hm & Hrest)%reachable_shape.
  unfold clear_history. rewrite Hm, Hmodel, filter_app.
  rewrite (filter_system_drops rest), (right_id_L [] (++)) by done.
  rewrite filter_system_keeps
    by exact (proj1 (init_messages model0 system_prompt)).
  done.
Qed.

(** [clear_history] on any object: only system messages are left, in their
    order, the history does not get longer, the model is kept, and a second
    call changes nothing. *)
Theorem clear_history_idempotent self :
  clear_history (clear_history self) = clear_history self
  ∧ Forall (λ msg, role msg = "system") (messages (clear_history self))
  ∧ (get_history_length (clear_history self) ≤ get_history_length self)%nat
  ∧ model (clear_history self) = model self
  ∧ (Forall (λ msg, role msg ≠ "system") (messages self) →
       get_history_length (clear_history self) = 0%nat).
Proof.
  unfold clear_history, get_history_length. simpl.
  assert (Forall (λ msg, role msg = "system")
            (filter (λ msg, role msg = "system") (messages self))) as Hall.
  { apply Forall_forall. by intros msg [Hmsg _]%list_elem_of_filter. }
  split; [by rewrite filter_system_keeps|]. split; [done|].
  split; [apply length_filter|]. split; [done|].
  intros Hnone. by rewrite filter_system_drops.
Qed.

(** The first message sent through a new conversation without system
    prompt ([None] or the empty string) is the request that [simple_chat]
    makes: same model, same single user message, same reply, same effect on
    the service. *)
Theorem first_send_is_simple_chat model0 system_prompt prompt w :
  system_prompt = None ∨ system_prompt = Some "" →
  (send_message ollama_chat prompt (__init__ model0 system_prompt) w).1.1
  = (simple_chat ollama_chat prompt model0 w).1
  ∧ (send_message ollama_chat prompt (__init__ model0 system_prompt) w).2
    = (simple_chat ollama_chat prompt model0 w).2.
Proof.
  intros [-> | ->]; unfold send_message, simple_chat, __init__; simpl;
    by destruct (ollama_chat model0 [user prompt] w) as [[answer|f] w'].
Qed.

End Conversation.

(** ** The theorems at concrete inputs *)

(** A technical query goes through the three nodes. *)
Lemma routing_correctness_witness :
  (3 ≤ 6)%nat
  ∧ ∃ r w_end,
      run_query 6 (workflow scripted) "Explain async/await in Python"
        [" Technical
"; "Coroutines, intermediate."; "Use async def and await."]
      = (r, ["orchestrator"; "analyzer"; "responder"], w_end)
      ∧ NoDup ["orchestrator"; "analyzer"; "responder"].
Proof.
  split; [lia|].
  destruct (run_query 6 (workflow scripted) "Explain async/await in Python"
              [" Technical
"; "Coroutines, intermediate."; "Use async def and await."])
    as [[r visited] w_end] eqn:Hrun.
  destruct (routing_correctness scripted 6 _ _ r visited w_end
              ltac:(lia) Hrun) as (Hnodup & _ & Hpath).
  destruct (Hpath " Technical
" ["Coroutines, intermediate."; "Use async def and await."] eq_refl)
    as [Htech _].
  assert (visited = ["orchestrator"; "analyzer"; "responder"]) as ->.
  { apply (proj1 (Htech ltac:(by vm_compute)) "Coroutines, intermediate."
             ["Use async def and await."] eq_refl). }
  by exists r, w_end.
Defined.

(** The reply "maybe" is no category: the query counts as general. *)
Lemma unrecognized_defaults_to_general_witness :
  (normalize "maybe" ∉ categories)
  ∧ ∃ state',
      orchestrator_node scripted (initial_state "Is it raining?")
        ["maybe"; "I cannot tell."]
      = (Ok state', ["I cannot tell."])
      ∧ state' !! "query_type" = Some "general"
      ∧ state' !! "next_step" = Some "responder".
Proof.
  assert (normalize "maybe" ∉ categories) as Hbad.
  { apply (bool_decide_unpack _). by vm_compute. }
  split; [exact Hbad|].
  exact (proj1 (unrecognized_defaults_to_general scripted
                  (initial_state "Is it raining?") "Is it raining?" "maybe"
                  ["maybe"; "I cannot tell."] ["I cannot tell."]
                  ltac:(by vm_compute) eq_refl Hbad)).
Defined.

(** The analyzer keeps the query of the state it is given. *)
Lemma node_frame_witness :
  well_formed (initial_state "What is a Python decorator?")
  ∧ ∀ state' w',
      analyzer_node scripted (initial_state "What is a Python decorator?")
        ["A wrapper."] = (Ok state', w') →
      state' !! "user_query" = Some "What is a Python decorator?".
Proof.
  pose proof (initial_state_well_formed "What is a Python decorator?") as Hwf.
  split; [exact Hwf|]. intros state' w' Hnode.
  destruct (node_frame scripted _ ["A wrapper."] Hwf) as (_ & Ha & _).
  destruct (Ha state' w' Hnode) as (_ & Hq & _).
  rewrite Hq. by vm_compute.
Defined.

(** The spinning graph under a limit of 2, against a limit of 3. *)
Lemma step_limit_enforced_witness :
  run 2 spinning (initial_state "loop") ([] : list string)
  = (Err StepLimitExceeded, ["spin"; "spin"], [])
  ∧ (length ["spin"; "spin"] ≤ 2)%nat
  ∧ ∃ r' more w',
      run 3 spinning (initial_state "loop") ([] : list string)
      = (r', "spin" :: "spin" :: more, w').
Proof.
  assert (run 2 spinning (initial_state "loop") ([] : list string)
          = (Err StepLimitExceeded, ["spin"; "spin"], [])) as Hrun.
  { by vm_compute. }
  split; [exact Hrun|].
  destruct (step_limit_enforced spinning 2 1 _ _ _ _ _ Hrun)
    as [Hlen [Hsame|(_ & _ & r' & more & w' & Hmore)]].
  - split; [exact Hlen|]. by exists (Err StepLimitExceeded), [], [].
  - split; [exact Hlen|]. by exists r', more, w'.
Defined.

(** The responder on the initial state of a greeting: the reply is stored
    stripped and the run stops. *)
Lemma responder_terminates_witness :
  well_formed (initial_state "Hello!")
  ∧ ∃ state',
      responder_node scripted (initial_state "Hello!") ["  Hi there!
"]
      = (Ok state', [])
      ∧ state' !! "final_response" = Some "Hi there!"
      ∧ state' !! "next_step" = Some "end"
      ∧ engine true 1 (workflow scripted) "responder"
          (initial_state "Hello!") ["  Hi there!
"]
        = (Ok state', ["responder"], []).
Proof.
  pose proof (initial_state_well_formed "Hello!") as Hwf.
  split; [exact Hwf|].
  destruct (responder_terminates scripted _ ["  Hi there!
"] Hwf) as (_ & query & _ & Hreply).
  destruct (Hreply "  Hi there!
" [] eq_refl) as (state' & Hnode & Hfinal & Hnext & Hstop).
  exists state'. split; [exact Hnode|]. split; [exact Hfinal|].
  split; [exact Hnext|]. apply Hstop.
Defined.

(** The responder on a state that carries an analysis, and on the initial
    state of the same query: the grounded prompt, which contains the
    analysis, and the plain prompt, which contains the query. *)
Lemma responder_prompt_choice_witness :
  well_formed (<["analysis" := "Decorators wrap functions."]>
                 (initial_state "What is a Python decorator?"))
  ∧ well_formed (initial_state "What is a Python decorator?")
  ∧ (∃ prompt,
       prompt = grounded_prompt "Decorators wrap functions."
                  "What is a Python decorator?"
       ∧ PyStr.contains prompt "Decorators wrap functions.")
  ∧ (∃ prompt,
       prompt = "Provide a helpful response to this query: What is a Python decorator?

Keep your response friendly and concise."
       ∧ PyStr.contains prompt "What is a Python decorator?").
Proof.
  pose proof (initial_state_well_formed "What is a Python decorator?") as Hwf0.
  pose proof (well_formed_insert _ "analysis" "Decorators wrap functions."
                Hwf0) as Hwf.
  split; [exact Hwf|]. split; [exact Hwf0|]. split.
  - destruct (responder_prompt_choice scripted _ ["A decorator is a wrapper."]
                Hwf)
      as (query & analysis & prompt & Hq & Ha & _ & Hgrounded & _).
    vm_compute in Hq. injection Hq as <-.
    vm_compute in Ha. injection Ha as <-.
    destruct (Hgrounded ltac:(discriminate)) as (Hprompt & Hcontains & _).
    exists prompt. split; [exact Hprompt|exact Hcontains].
  - destruct (responder_prompt_choice scripted _ ["A decorator is a wrapper."]
                Hwf0)
      as (query & analysis & prompt & Hq & Ha & _ & _ & _ & Hcontains & _
          & Hplain).
    vm_compute in Hq. injection Hq as <-.
    vm_compute in Ha. injection Ha as <-.
    destruct (Hplain eq_refl) as [Hprompt _].
    exists prompt. split; [exact Hprompt|exact Hcontains].
Defined.

(** A client keyed by the prompt, started with different call counters. *)
Lemma run_deterministic_witness :
  (run 6 (workflow (keyed (λ _, Content "general")))
     (initial_state "Hello!") 0%nat).1
  = (run 6 (workflow (keyed (λ _, Content "general")))
       (initial_state "Hello!") 7%nat).1.
Proof.
  exact (proj1 (run_deterministic
                  (keyed (λ _, Content "general"))
                  (keyed (λ _, Content "general"))
                  (λ _, Content "general")
                  (λ _ _, eq_refl) (λ _ _, eq_refl)
                  6 (initial_state "Hello!") 0%nat 7%nat)).
Defined.

(** The example with the recommended limit of twice three nodes. *)
Lemma end_to_end_example_witness :
  ∃ final w_end,
    run_query 6 (workflow scripted) "Explain async/await"
      ["technical"; "ANALYSIS"; "RESPONSE"]
    = (Ok final, ["orchestrator"; "analyzer"; "responder"], w_end)
    ∧ final !! "final_response" = Some "RESPONSE"
    ∧ final !! "analysis" = Some "ANALYSIS".
Proof. exact (proj2 (end_to_end_example 6 ltac:(lia))). Defined.

(** The orchestrator on a technical reply asks for the analyzer. *)
Lemma routing_label_registered_witness :
  ∃ state',
    orchestrator_node scripted (initial_state "Explain async/await")
      ["TECHNICAL"] = (Ok state', [])
    ∧ successor (workflow scripted) "orchestrator" state'
      = Ok (Node "analyzer").
Proof.
  assert (orchestrator_node scripted (initial_state "Explain async/await")
            ["TECHNICAL"]
          = (Ok (<["next_step" := "analyzer"]>
                   (<["query_type" := "technical"]>
                      (initial_state "Explain async/await"))), []))
    as Hnode by (by vm_compute).
  eexists. split; [exact Hnode|].
  destruct (routing_label_registered scripted _ _ _ _ Hnode)
    as (label & path_map & _ & Hns & _ & _ & _ & Hsucc & _).
  rewrite lookup_insert_eq in Hns. injection Hns as <-. exact Hsucc.
Defined.

(** A greeting leaves [analysis] empty. *)
Lemma analysis_untouched_witness :
  ∃ final w_end,
    run 6 (workflow scripted) (initial_state "Hello!") ["greeting"; "Hi!"]
    = (Ok final, ["orchestrator"; "responder"], w_end)
    ∧ final !! "query_type" ≠ Some "technical"
    ∧ final !! "analysis" = Some "".
Proof.
  assert (run 6 (workflow scripted) (initial_state "Hello!")
            ["greeting"; "Hi!"]
          = (Ok (<["next_step" := "end"]>
                   (<["final_response" := "Hi!"]>
                      (<["next_step" := "responder"]>
                         (<["query_type" := "greeting"]>
                            (initial_state "Hello!"))))),
             ["orchestrator"; "responder"], []))
    as Hrun by (by vm_compute).
  eexists _, _. split; [exact Hrun|].
  assert (<["next_step" := "end"]>
            (<["final_response" := "Hi!"]>
               (<["next_step" := "responder"]>
                  (<["query_type" := "greeting"]> (initial_state "Hello!"))))
          !! "query_type" ≠ Some "technical") as Hqt.
  { vm_compute. discriminate. }
  split; [exact Hqt|].
  destruct (analysis_untouched scripted 6 _ _ _ _ _ Hrun Hqt) as (_ & _ & Ha).
  by apply (Ha "Hello!").
Defined.

(** ** The further properties at concrete inputs *)

(** The analyzer on the empty state: a [KeyError], no call. *)
Lemma user_query_required_witness :
  nodes (workflow scripted) !! "analyzer" = Some (analyzer_node scripted)
  ∧ analyzer_node scripted ∅ ["unused"]
    = (Err (KeyError "user_query"), ["unused"]).
Proof.
  assert (nodes (workflow scripted) !! "analyzer"
          = Some (analyzer_node scripted)) as Hnode
    by (by rewrite workflow_nodes).
  split; [exact Hnode|].
  destruct (user_query_required scripted "analyzer" _ ∅ ["unused"] Hnode)
    as [Hmissing _].
  exact (proj1 (Hmissing eq_refl)).
Defined.

(** The responder asks for ["end"] and its edge leads to [END]. *)
Lemma next_step_matches_edges_witness :
  ∃ state',
    responder_node scripted (initial_state "Hello!") ["Hi!"]
    = (Ok state', [])
    ∧ successor (workflow scripted) "responder" state' = Ok END.
Proof.
  assert (nodes (workflow scripted) !! "responder"
          = Some (responder_node scripted)) as Hnode
    by (by rewrite workflow_nodes).
  assert (responder_node scripted (initial_state "Hello!") ["Hi!"]
          = (Ok (<["next_step" := "end"]>
                   (<["final_response" := "Hi!"]> (initial_state "Hello!"))),
             [])) as Hrun by (by vm_compute).
  eexists. split; [exact Hrun|].
  destruct (next_step_matches_edges scripted _ _ _ _ _ _ Hnode Hrun)
    as (label & Hlabel & Hsucc & _).
  rewrite lookup_insert_eq in Hlabel. injection Hlabel as <-. exact Hsucc.
Defined.

(** A greeting, run to the end. *)
Lemma completed_run_state_witness :
  ∃ final visited w_end,
    run_query 6 (workflow scripted) "Hello!" ["greeting"; " Hi! "]
    = (Ok final, visited, w_end)
    ∧ final !! "user_query" = Some "Hello!"
    ∧ final !! "next_step" = Some "end"
    ∧ last visited = Some "responder".
Proof.
  eassert (run_query 6 (workflow scripted) "Hello!" ["greeting"; " Hi! "]
           = (Ok _, ["orchestrator"; "responder"], [])) as Hrun.
  { unfold run_query.
    exact (run_plain scripted 6 _ "Hello!" "greeting" " Hi! "
             ["greeting"; " Hi! "] [" Hi! "] []
             ltac:(lia) (initial_state_user_query _) eq_refl
             ltac:(vm_compute; discriminate) eq_refl). }
  eexists _, ["orchestrator"; "responder"], []. split; [exact Hrun|].
  destruct (completed_run_state scripted _ _ _ _ _ _ Hrun)
    as (_ & Hq & Hns & _ & Hlast).
  done.
Defined.

(** A technical query, run to the end: the analyzer was invoked. *)
Lemma analyzer_iff_technical_witness :
  ∃ final visited w_end,
    run 6 (workflow scripted) (initial_state "Explain async/await")
      ["technical"; "Coroutines."; "Use await."]
    = (Ok final, visited, w_end)
    ∧ ("analyzer" ∈ visited ↔ final !! "query_type" = Some "technical").
Proof.
  eassert (run 6 (workflow scripted) (initial_state "Explain async/await")
             ["technical"; "Coroutines."; "Use await."]
           = (Ok _, ["orchestrator"; "analyzer"; "responder"], [])) as Hrun.
  { exact (run_technical scripted 6 _ "Explain async/await"
             "technical" "Coroutines." "Use await."
             ["technical"; "Coroutines."; "Use await."]
             ["Coroutines."; "Use await."] ["Use await."] []
             ltac:(lia) (initial_state_user_query _) eq_refl
             ltac:(by vm_compute) eq_refl eq_refl). }
  eexists _, ["orchestrator"; "analyzer"; "responder"], [].
  split; [exact Hrun|].
  exact (proj1 (analyzer_iff_technical scripted _ _ _ _ _ _ Hrun)).
Defined.

(** A technical query against the scripted client. *)
Lemma technical_run_witness :
  ∃ final,
    run_query 3 (workflow scripted) "Explain async/await"
      [" Technical "; " Coroutines. "; " Use await.
"]
    = (Ok final, ["orchestrator"; "analyzer"; "responder"], [])
    ∧ final !! "analysis" = Some "Coroutines."
    ∧ final !! "final_response" = Some "Use await.".
Proof.
  destruct (technical_run scripted 3 "Explain async/await"
              " Technical " " Coroutines. " " Use await.
"
              [" Technical "; " Coroutines. "; " Use await.
"]
              [" Coroutines. "; " Use await.
"] [" Use await.
"] []
              ltac:(lia) eq_refl ltac:(by vm_compute) eq_refl eq_refl)
    as (final & Hrun & _ & _ & Ha & Hr & _).
  exists final. split; [exact Hrun|]. split; [exact Ha|exact Hr].
Defined.

(** A reply that is no category, against the scripted client. *)
Lemma plain_run_witness :
  ∃ final,
    run_query 2 (workflow scripted) "Is it raining?" ["maybe"; "No."]
    = (Ok final, ["orchestrator"; "responder"], [])
    ∧ final !! "query_type" = Some "general"
    ∧ final !! "analysis" = Some ""
    ∧ final !! "final_response" = Some "No.".
Proof.
  destruct (plain_run scripted 2 "Is it raining?" "maybe" "No."
              ["maybe"; "No."] ["No."] []
              ltac:(lia) eq_refl ltac:(vm_compute; discriminate) eq_refl)
    as (final & Hrun & _ & Hqt & Ha & Hr & _).
  exists final. split; [exact Hrun|]. split; [exact Hqt|].
  split; [exact Ha|exact Hr].
Defined.

(** An analysis made of a newline and spaces. *)
Lemma blank_analysis_is_dropped_witness :
  PyStr.strip "
  " = ""
  ∧ ∃ final,
      run_query 3 (workflow scripted) "Explain async/await"
        ["technical"; "
  "; "Use await."]
      = (Ok final, ["orchestrator"; "analyzer"; "responder"], [])
      ∧ final !! "query_type" = Some "technical"
      ∧ final !! "analysis" = Some "".
Proof.
  split; [reflexivity|].
  destruct (blank_analysis_is_dropped scripted 3 "Explain async/await"
              "technical" "
  " "Use await."
              ["technical"; "
  "; "Use await."] ["
  "; "Use await."] ["Use await."] []
              ltac:(lia) eq_refl ltac:(by vm_compute) eq_refl eq_refl eq_refl)
    as (final & Hrun & Hqt & Ha & _).
  exists final. split; [exact Hrun|]. split; [exact Hqt|exact Ha].
Defined.

(** The scripted client runs out of replies in the analyzer. *)
Lemma run_query_fails_on_model_only_witness :
  run_query 3 (workflow scripted) "Explain async/await" ["technical"]
  = (Err (ModelFailed ModelError), ["orchestrator"; "analyzer"], [])
  ∧ ∃ f, ModelFailed ModelError = ModelFailed f.
Proof.
  assert (run_query 3 (workflow scripted) "Explain async/await" ["technical"]
          = (Err (ModelFailed ModelError), ["orchestrator"; "analyzer"], []))
    as Hrun by (by vm_compute).
  split; [exact Hrun|].
  exact (run_query_fails_on_model_only scripted 3 _ _ _ _ _
           ltac:(lia) Hrun).
Defined.

(** The keyed client always replies: the response is stored stripped. *)
Lemma run_query_completes_witness :
  ∃ final visited w_end,
    run_query 3 (workflow (keyed (λ _, Content " greeting "))) "Hello!" 0%nat
    = (Ok final, visited, w_end)
    ∧ final !! "final_response" = Some "greeting"
    ∧ final !! "next_step" = Some "end".
Proof.
  destruct (run_query_completes (keyed (λ _, Content " greeting ")) 3
              "Hello!" 0%nat) as (final & visited & w_end & Hrun & _ & _ & _
                                  & Hnext & _ & prompt & response & w_before
                                  & Hcall & _ & Hfinal).
  - intros prompt calls. by exists " greeting ", (S calls).
  - lia.
  - exists final, visited, w_end. split; [exact Hrun|].
    injection Hcall as <- _. split; [exact Hfinal|exact Hnext].
Defined.

(** A technical query with the prompts recorded: three calls. *)
Lemma one_call_per_node_witness :
  ∃ r w' log,
    run_query 3 (workflow (recording scripted)) "Explain async/await"
      (["technical"; "Coroutines."; "Use await."], [])
    = (r, ["orchestrator"; "analyzer"; "responder"], (w', log))
    ∧ length log = 3%nat
    ∧ head log = Some (classification_prompt "Explain async/await").
Proof.
  destruct (run_query 3 (workflow (recording scripted)) "Explain async/await"
              (["technical"; "Coroutines."; "Use await."], []))
    as [[r visited] [w' log]] eqn:Hrun.
  assert (visited = ["orchestrator"; "analyzer"; "responder"]) as ->.
  { vm_compute in Hrun. by injection Hrun as _ <- _ _. }
  destruct (one_call_per_node scripted 3 _ _ _ _ _ _ Hrun)
    as (_ & Hlen & _ & _ & Hhead).
  exists r, w', log. split; [done|]. split; [exact Hlen|].
  by apply Hhead.
Defined.

(** A tutor conversation of two turns against the scripted chat service. *)
Lemma conversation_history_witness :
  ∃ self' w',
    Chat.converses Chat.scripted_chat
      (Chat.__init__ "llama3" (Some "You are a tutor."))
      ["A wrapper."; "See functools."; "unused"]
      [("What is a decorator?", "A wrapper."); ("An example?", "See functools.")]
      self' w'
    ∧ Chat.get_history_length self' = 5%nat.
Proof.
  eassert (Chat.converses Chat.scripted_chat
             (Chat.__init__ "llama3" (Some "You are a tutor."))
             ["A wrapper."; "See functools."; "unused"]
             [("What is a decorator?", "A wrapper.");
              ("An example?", "See functools.")] _ _) as Hturns.
  { econstructor; [reflexivity|]. econstructor; [reflexivity|]. constructor. }
  eexists _, _. split; [exact Hturns|].
  exact (proj1 (proj2 (conversation_history Chat.scripted_chat
                         _ _ _ _ _ Hturns))).
Defined.

(** The third request of that conversation carries the five messages
    before it and the new question. *)
Lemma model_sees_whole_history_witness :
  ∃ self2 w2,
    Chat.converses Chat.scripted_chat
      (Chat.__init__ "llama3" (Some "You are a tutor."))
      ["A wrapper."; "See functools."; "Caching."]
      [("What is a decorator?", "A wrapper."); ("An example?", "See functools.");
       ("A use case?", "Caching.")]
      self2 w2
    ∧ Chat.get_history_length self2 = 7%nat.
Proof.
  eassert (Chat.converses Chat.scripted_chat
             (Chat.__init__ "llama3" (Some "You are a tutor."))
             ["A wrapper."; "See functools."; "Caching."]
             [("What is a decorator?", "A wrapper.");
              ("An example?", "See functools.")] _ _) as Hturns.
  { econstructor; [reflexivity|]. econstructor; [reflexivity|]. constructor. }
  eassert (Chat.send_message Chat.scripted_chat "A use case?" _ ["Caching."]
           = (Ok "Caching.", _, [])) as Hsend by reflexivity.
  destruct (model_sees_whole_history Chat.scripted_chat _ _ _ _ _ _ _ _ _
              Hturns Hsend) as [_ Hall].
  eexists _, _. split; [exact Hall|]. reflexivity.
Defined.

(** The service is down: the question stays in the history. *)
Lemma failed_send_keeps_user_message_witness :
  ∃ self1,
    Chat.send_message Chat.scripted_chat "Hello?"
      (Chat.__init__ "llama3" None) []
    = (Err (ModelFailed ModelUnavailable), self1, [])
    ∧ Chat.get_history_length self1 = 1%nat.
Proof.
  eassert (Chat.send_message Chat.scripted_chat "Hello?"
             (Chat.__init__ "llama3" None) []
           = (Err (ModelFailed ModelUnavailable), _, [])) as Hsend
    by reflexivity.
  eexists. split; [exact Hsend|].
  exact (proj1 (proj2 (failed_send_keeps_user_message Chat.scripted_chat
                         _ _ _ _ _ _ Hsend))).
Defined.

(** After a turn and a failed call the system prompt is still first. *)
Lemma system_prompt_stays_first_witness :
  ∃ self,
    Chat.reachable Chat.scripted_chat "llama3" (Some "You are a tutor.") self
    ∧ Chat.get_history_length self = 4%nat
    ∧ Chat.model self = "llama3".
Proof.
  eassert (Chat.reachable Chat.scripted_chat "llama3"
             (Some "You are a tutor.") _) as Hreach.
  { eapply Chat.reachable_send with (user_message := "And then?") (w := []);
      [|reflexivity].
    eapply Chat.reachable_send with (user_message := "Hello?")
                                    (w := ["Hi."]);
      [|reflexivity].
    apply Chat.reachable_new. }
  eexists. split; [exact Hreach|]. split; [reflexivity|].
  exact (proj1 (system_prompt_stays_first Chat.scripted_chat _ _ _ Hreach)).
Defined.

(** Clearing after a turn gives the new object back. *)
Lemma clear_history_resets_witness :
  ∃ self,
    Chat.reachable Chat.scripted_chat "llama3" (Some "You are a tutor.") self
    ∧ Chat.get_history_length self = 3%nat
    ∧ Chat.clear_history self
      = Chat.__init__ "llama3" (Some "You are a tutor.").
Proof.
  eassert (Chat.reachable Chat.scripted_chat "llama3"
             (Some "You are a tutor.") _) as Hreach.
  { eapply Chat.reachable_send with (user_message := "Hello?")
                                    (w := ["Hi."]);
      [|reflexivity].
    apply Chat.reachable_new. }
  eexists. split; [exact Hreach|]. split; [reflexivity|].
  exact (clear_history_resets Chat.scripted_chat _ _ _ Hreach).
Defined.

(** An empty system prompt counts as none. *)
Lemma first_send_is_simple_chat_witness :
  (Chat.send_message Chat.scripted_chat "What is Python?"
     (Chat.__init__ "llama3" (Some "")) ["A language."]).1.1
  = (Chat.simple_chat Chat.scripted_chat "What is Python?" "llama3"
       ["A language."]).1.
Proof.
  exact (proj1 (first_send_is_simple_chat Chat.scripted_chat "llama3"
                  (Some "") "What is Python?" ["A language."]
                  (or_intror eq_refl))).
Defined.

(** An upper-case reply between blanks counts as the plain word. *)
Lemma classify_insensitive_witness :
  classify "  technical
" = classify "technical"
  ∧ classify "TECHNICAL" = classify "technical".
Proof.
  destruct (classify_insensitive "technical") as [Hblank Hcase].
  split.
  - exact (Hblank "  " "
" eq_refl eq_refl).
  - exact (Hcase "TECHNICAL" eq_refl).
Defined.

(** The analysis stored from a reply with blanks around it. *)
Lemma stored_text_trimmed_witness :
  ∃ analysis,
    (<["next_step" := "responder"]>
       (<["analysis" := PyStr.strip "  Coroutines.
"]> (initial_state "Explain async/await")))
    !! "analysis" = Some analysis
    ∧ trimmed analysis.
Proof.
  apply (proj1 (stored_text_trimmed scripted
                  (initial_state "Explain async/await") _
                  ["  Coroutines.
"] [])).
  reflexivity.
Defined.

(** Clearing a history of a system prompt and one turn, twice. *)
Lemma clear_history_idempotent_witness :
  (Chat.get_history_length
     (Chat.clear_history
        {| Chat.model := "llama3";
           Chat.messages :=
             [ {| Chat.role := "system"; Chat.content := "You are a tutor." |};
               {| Chat.role := "user"; Chat.content := "Hello?" |};
               {| Chat.role := "assistant"; Chat.content := "Hi." |} ] |})
   ≤ 3)%nat.
Proof.
  exact (proj1 (proj2 (proj2 (clear_history_idempotent
    {| Chat.model := "llama3";
       Chat.messages :=
         [ {| Chat.role := "system"; Chat.content := "You are a tutor." |};
           {| Chat.role := "user"; Chat.content := "Hello?" |};
           {| Chat.role := "assistant"; Chat.content := "Hi." |} ] |})))).
Defined.
